(** * The conversation loop of app.js

    A shallow embedding of the browser script [app.js]: the session
    identifier taken from (or written to) the page URL, the
    record / stop / upload / playback handlers, and the timer that re-arms
    recording after a reply has been played.

    The script is event driven.  Every handler runs to completion, and an
    [async] function gives up control at each [await]; the embedding
    therefore has one transition per handler segment, and the browser
    chooses the order of the transitions ([Loop.event]).  The globals of
    the script and the DOM properties it touches are the fields of
    [Loop.state].  What the script writes to the console is left out. *)

From stdpp Require Import base strings option numbers list.
From Stdlib Require Import Strings.Ascii Strings.Byte.

#[local] Set Warnings "-register-all".

Open Scope string_scope.

(** ** JavaScript values as far as the script observes them *)

Module JS.

(** The result of [JSON.parse].  A number is given by the two things the
    script can observe of it: whether it is zero, and how the engine prints
    it ([Number::toString]: ["5"], ["0.5"], ["1e+21"]). *)
Inductive json : Type :=
| JNull
| JBool (b : bool)
| JNum (zero : bool) (printed : string)
| JStr (s : string)
| JArr (items : list json)
| JObj (members : list (string * json)).

(** The [TypeError]s that the engine can throw in this script: a property
    read on [null], and an object that has no primitive value. *)
Inductive type_error : Type :=
| NullRead (k : string)
| NoPrimitive.

(** A property read yields a value or [undefined] ([None]). *)
Definition jsval : Type := option json.

(** Last binding of a key: [JSON.parse] keeps the last duplicate. *)
Fixpoint member (k : string) (members : list (string * json)) : jsval :=
  match members with
  | [] => None
  | (k', v) :: rest =>
      match member k rest with
      | Some w => Some w
      | None => if String.eqb k k' then Some v else None
      end
  end.

(** [data.k] for the keys the script reads ([gemini_text], [audio_url],
    [detail]: none of them is inherited or built in).  Reading a property
    of [null] throws, which is [None] here. *)
Definition get_prop (data : json) (k : string) : option jsval :=
  match data with
  | JNull => None
  | JObj members => Some (member k members)
  | _ => Some None
  end.

(** ToBoolean. *)
Definition truthy (v : jsval) : bool :=
  match v with
  | None => false
  | Some JNull => false
  | Some (JBool b) => b
  | Some (JNum zero _) => negb zero
  | Some (JStr s) => negb (String.eqb s "")
  | Some (JArr _) => true
  | Some (JObj _) => true
  end.

Definition join_comma (parts : list string) : string :=
  match parts with
  | [] => ""
  | p :: rest => fold_left (fun acc q => acc ++ "," ++ q) rest p
  end.

(** ToString; [None] when it throws a [TypeError].  An array prints its
    items separated by commas, with [null] items blank, and throws when an
    item does.  A plain object prints as [[object Object]] through the
    method it inherits; with a member [toString] of its own, which hides
    that method and cannot be called, it has no primitive value. *)
Fixpoint to_string (j : json) : option string :=
  match j with
  | JNull => Some "null"
  | JBool true => Some "true"
  | JBool false => Some "false"
  | JNum _ printed => Some printed
  | JStr s => Some s
  | JArr items =>
      join_comma <$>
        (fix each (l : list json) : option (list string) :=
           match l with
           | [] => Some []
           | x :: rest =>
               match match x with
                     | JNull => Some ""
                     | _ => to_string x
                     end, each rest with
               | Some p, Some ps => Some (p :: ps)
               | _, _ => None
               end
           end) items
  | JObj members =>
      match member "toString" members with
      | Some _ => None
      | None => Some "[object Object]"
      end
  end.

Definition ToString (v : jsval) : option string :=
  match v with
  | None => Some "undefined"
  | Some j => to_string j
  end.

(** [a || b] *)
Definition or_else (a b : jsval) : jsval := if truthy a then a else b.

End JS.

(** ** Session identifier *)

Module Session.

(** What [getOrCreateSessionId] reads and writes of [window]: the query
    string of the current URL and the entries pushed on the history. *)
Record window : Type := Window {
  location_search : string;
  history_pushed : list string
}.

(** [history.pushState(null, '', url)] with a [url] that is only a query
    string: the page stays, the query string of its URL is replaced and one
    history entry is added.  Nothing is loaded. *)
Definition pushState (url : string) (w : window) : window :=
  {| location_search := url;
     history_pushed := history_pushed w ++ [url] |}.

Section Resolver.

(** [new URLSearchParams(search).get(name)]: [None] is [null]. *)
Variable params_get : string -> string -> option string.

(** [!id] *)
Definition falsy (id : option string) : bool :=
  match id with
  | None => true
  | Some s => String.eqb s ""
  end.

(** [uuid] is what [self.crypto.randomUUID()] returns if it is called. *)
Definition getOrCreateSessionId (uuid : string) (w : window)
  : string * window :=
  let id := params_get (location_search w) "session_id" in
  if falsy id then
    let id := uuid in
    (id, pushState ("?session_id=" ++ id) w)
  else
    (default "" id, w).

End Resolver.

(** *** The query-string parser of the browser

    The steps of the URL standard for [application/x-www-form-urlencoded]
    text.  Strings are byte strings that hold UTF-8. *)

Fixpoint split_on (c : ascii) (s : string) : list string :=
  match s with
  | EmptyString => [EmptyString]
  | String a rest =>
      if Ascii.eqb a c then EmptyString :: split_on c rest
      else match split_on c rest with
           | [] => [String a EmptyString]
           | p :: ps => String a p :: ps
           end
  end.

(** Name and value of one [name=value] piece, cut at the first [=]. *)
Fixpoint cut_at_eq (s : string) : string * string :=
  match s with
  | EmptyString => (EmptyString, EmptyString)
  | String a rest =>
      if Ascii.eqb a "="%char then (EmptyString, rest)
      else let (n, v) := cut_at_eq rest in (String a n, v)
  end.

Definition hex_val (a : ascii) : option N :=
  let n := Ascii.N_of_ascii a in
  if ((48 <=? n) && (n <=? 57))%N then Some (n - 48)%N
  else if ((65 <=? n) && (n <=? 70))%N then Some (n - 55)%N
  else if ((97 <=? n) && (n <=? 102))%N then Some (n - 87)%N
  else None.

Fixpoint percent_decode (s : string) : string :=
  match s with
  | EmptyString => EmptyString
  | String a rest =>
      match rest with
      | String h (String l rest') =>
          if Ascii.eqb a "%"%char then
            match hex_val h, hex_val l with
            | Some x, Some y =>
                String (Ascii.ascii_of_N (16 * x + y)) (percent_decode rest')
            | _, _ => String a (percent_decode rest)
            end
          else String a (percent_decode rest)
      | _ => String a (percent_decode rest)
      end
  end.

Fixpoint plus_to_space (s : string) : string :=
  match s with
  | EmptyString => EmptyString
  | String a rest =>
      String (if Ascii.eqb a "+"%char then " "%char else a) (plus_to_space rest)
  end.

(** U+FFFD, in UTF-8. *)
Definition replacement : string :=
  String (Ascii.ascii_of_N 239)
    (String (Ascii.ascii_of_N 191) (String (Ascii.ascii_of_N 189) EmptyString)).

(** The decoder of the Encoding standard on a first byte: what is emitted,
    and for a lead byte the bytes held back, the number of bytes still
    needed and the bounds of the next byte. *)
Definition utf8_lead (b : ascii) : string * (string * nat * N * N) :=
  let n := Ascii.N_of_ascii b in
  if (n <=? 127)%N
  then (String b EmptyString, (EmptyString, 0%nat, 128%N, 191%N))
  else if ((194 <=? n) && (n <=? 223))%N
  then (EmptyString, (String b EmptyString, 1%nat, 128%N, 191%N))
  else if ((224 <=? n) && (n <=? 239))%N
  then (EmptyString,
        (String b EmptyString, 2%nat,
         if (n =? 224)%N then 160%N else 128%N,
         if (n =? 237)%N then 159%N else 191%N))
  else if ((240 <=? n) && (n <=? 244))%N
  then (EmptyString,
        (String b EmptyString, 3%nat,
         if (n =? 240)%N then 144%N else 128%N,
         if (n =? 244)%N then 143%N else 191%N))
  else (replacement, (EmptyString, 0%nat, 128%N, 191%N)).

(** UTF-8 decode without BOM, with the result written in UTF-8 again: a
    well-formed sequence comes out as it went in, and each ill-formed part
    comes out as U+FFFD.  A byte that cannot continue a sequence ends it
    and is read again as a first byte. *)
Fixpoint utf8_decode_from (held : string) (needed : nat) (lower upper : N)
    (s : string) : string :=
  match s with
  | EmptyString =>
      match needed with
      | O => EmptyString
      | S _ => replacement
      end
  | String b rest =>
      match needed with
      | O =>
          let '(out, (h, k, lo, hi)) := utf8_lead b in
          out ++ utf8_decode_from h k lo hi rest
      | S k =>
          let n := Ascii.N_of_ascii b in
          if ((lower <=? n) && (n <=? upper))%N then
            match k with
            | O =>
                (held ++ String b EmptyString)
                ++ utf8_decode_from EmptyString 0%nat 128%N 191%N rest
            | S _ =>
                utf8_decode_from (held ++ String b EmptyString) k 128%N 191%N
                  rest
            end
          else
            let '(out, (h, k', lo, hi)) := utf8_lead b in
            replacement ++ out ++ utf8_decode_from h k' lo hi rest
      end
  end.

Definition utf8_decode (s : string) : string :=
  utf8_decode_from EmptyString 0%nat 128%N 191%N s.

Definition form_decode (s : string) : string :=
  utf8_decode (percent_decode (plus_to_space s)).

Definition strip_question (s : string) : string :=
  match s with
  | String a rest => if Ascii.eqb a "?"%char then rest else s
  | EmptyString => s
  end.

Definition parse_query (search : string) : list (string * string) :=
  omap (fun piece =>
          if String.eqb piece "" then None
          else let (n, v) := cut_at_eq piece in
               Some (form_decode n, form_decode v))
       (split_on "&"%char (strip_question search)).

(** [get] returns the value of the first pair with the given name. *)
Definition URLSearchParams_get (search name : string) : option string :=
  snd <$> List.find (fun p => String.eqb (fst p) name) (parse_query search).

(** The characters of what [crypto.randomUUID()] returns: digits, the
    letters [a] to [f] and the hyphen. *)
Definition uuid_char (c : ascii) : bool :=
  let n := Ascii.N_of_ascii c in
  (((48 <=? n) && (n <=? 57)) || ((97 <=? n) && (n <=? 102)) || (n =? 45))%N.

Fixpoint uuid_chars (s : string) : bool :=
  match s with
  | EmptyString => true
  | String c rest => uuid_char c && uuid_chars rest
  end.

End Session.

(** ** The recording loop *)

Module Loop.

Import JS.

(** *** Data *)

(** A [Blob]: its bytes and its media type.  [e.data.size] is the number of
    bytes. *)
Record blob : Type := Blob {
  blob_data : list byte;
  blob_type : string
}.

Definition blob_size (b : blob) : nat := length (blob_data b).

(** [new Blob(parts, { type })] *)
Definition new_Blob (parts : list blob) (type : string) : blob :=
  {| blob_data := concat (map blob_data parts); blob_type := type |}.

(** One entry of a [FormData], as [append(name, value, filename)] adds it. *)
Record form_entry : Type := FormEntry {
  entry_name : string;
  entry_value : blob;
  entry_filename : string
}.

(** The arguments of one call of [fetch]. *)
Record request : Type := Request {
  req_url : string;
  req_method : string;
  req_body : list form_entry
}.

(** A [MediaRecorder] made by the script.  [state] reads ["recording"] for
    [Recording] and ["inactive"] otherwise; [Stopping] is the time between
    the call of [stop()] and the delivery of the [stop] event. *)
Inductive recorder : Type := Recording | Stopping | Stopped.

#[export] Instance recorder_eq_dec : EqDecision recorder.
Proof. solve_decision. Defined.

(** How [await res.json()] ends. *)
Inductive body : Type :=
| NotJson (message : string)
| Parsed (data : json).

(** How [await fetch(...)] ends: it rejects, or there is a response, of
    which the script could read [ok] and does read the body. *)
Inductive fetch_outcome : Type :=
| NetworkError (message : string)
| Responded (ok : bool) (payload : body).

(** The globals of the script, the DOM properties it reads or writes, and
    what the browser holds for it: the recorders made so far
    ([mediaRecorder] is an index into them, [None] before the first one),
    the calls of [startRecording] waiting for [getUserMedia], the calls of
    [fetch] made and how many are not answered yet, the timers, the clock
    in milliseconds, and the wording of the [TypeError]s of its engine.
    [audioPlayer_playing] is set by [play()] and cleared when playback ends
    or the source is replaced. *)
Record state : Type := State {
  mediaRecorder : option nat;
  audioChunks : list blob;
  session_id : string;
  recordBtn_disabled : bool;
  stopBtn_disabled : bool;
  statusText : string;
  spinner_display : string;
  audioPlayer_src : string;
  audioPlayer_display : string;
  audioPlayer_playing : bool;
  geminiText : string;
  recorders : list recorder;
  awaiting_device : nat;
  requests : list request;
  in_flight : nat;
  timers : list N;
  now : N;
  engine_wording : type_error -> string
}.

(** Assignments, one per field that the script or the browser changes. *)
Definition set_mediaRecorder v s :=
  State v (audioChunks s) (session_id s) (recordBtn_disabled s)
    (stopBtn_disabled s) (statusText s) (spinner_display s)
    (audioPlayer_src s) (audioPlayer_display s) (audioPlayer_playing s)
    (geminiText s) (recorders s) (awaiting_device s) (requests s)
    (in_flight s) (timers s) (now s) (engine_wording s).
Definition set_audioChunks v s :=
  State (mediaRecorder s) v (session_id s) (recordBtn_disabled s)
    (stopBtn_disabled s) (statusText s) (spinner_display s)
    (audioPlayer_src s) (audioPlayer_display s) (audioPlayer_playing s)
    (geminiText s) (recorders s) (awaiting_device s) (requests s)
    (in_flight s) (timers s) (now s) (engine_wording s).
Definition set_session_id v s :=
  State (mediaRecorder s) (audioChunks s) v (recordBtn_disabled s)
    (stopBtn_disabled s) (statusText s) (spinner_display s)
    (audioPlayer_src s) (audioPlayer_display s) (audioPlayer_playing s)
    (geminiText s) (recorders s) (awaiting_device s) (requests s)
    (in_flight s) (timers s) (now s) (engine_wording s).
Definition set_recordBtn_disabled v s :=
  State (mediaRecorder s) (audioChunks s) (session_id s) v
    (stopBtn_disabled s) (statusText s) (spinner_display s)
    (audioPlayer_src s) (audioPlayer_display s) (audioPlayer_playing s)
    (geminiText s) (recorders s) (awaiting_device s) (requests s)
    (in_flight s) (timers s) (now s) (engine_wording s).
Definition set_stopBtn_disabled v s :=
  State (mediaRecorder s) (audioChunks s) (session_id s)
    (recordBtn_disabled s) v (statusText s) (spinner_display s)
    (audioPlayer_src s) (audioPlayer_display s) (audioPlayer_playing s)
    (geminiText s) (recorders s) (awaiting_device s) (requests s)
    (in_flight s) (timers s) (now s) (engine_wording s).
Definition set_statusText v s :=
  State (mediaRecorder s) (audioChunks s) (session_id s)
    (recordBtn_disabled s) (stopBtn_disabled s) v (spinner_display s)
    (audioPlayer_src s) (audioPlayer_display s) (audioPlayer_playing s)
    (geminiText s) (recorders s) (awaiting_device s) (requests s)
    (in_flight s) (timers s) (now s) (engine_wording s).
Definition set_spinner_display v s :=
  State (mediaRecorder s) (audioChunks s) (session_id s)
    (recordBtn_disabled s) (stopBtn_disabled s) (statusText s) v
    (audioPlayer_src s) (audioPlayer_display s) (audioPlayer_playing s)
    (geminiText s) (recorders s) (awaiting_device s) (requests s)
    (in_flight s) (timers s) (now s) (engine_wording s).
Definition set_audioPlayer_src v s :=
  State (mediaRecorder s) (audioChunks s) (session_id s)
    (recordBtn_disabled s) (stopBtn_disabled s) (statusText s)
    (spinner_display s) v (audioPlayer_display s) (audioPlayer_playing s)
    (geminiText s) (recorders s) (awaiting_device s) (requests s)
    (in_flight s) (timers s) (now s) (engine_wording s).
Definition set_audioPlayer_display v s :=
  State (mediaRecorder s) (audioChunks s) (session_id s)
    (recordBtn_disabled s) (stopBtn_disabled s) (statusText s)
    (spinner_display s) (audioPlayer_src s) v (audioPlayer_playing s)
    (geminiText s) (recorders s) (awaiting_device s) (requests s)
    (in_flight s) (timers s) (now s) (engine_wording s).
Definition set_audioPlayer_playing v s :=
  State (mediaRecorder s) (audioChunks s) (session_id s)
    (recordBtn_disabled s) (stopBtn_disabled s) (statusText s)
    (spinner_display s) (audioPlayer_src s) (audioPlayer_display s) v
    (geminiText s) (recorders s) (awaiting_device s) (requests s)
    (in_flight s) (timers s) (now s) (engine_wording s).
Definition set_geminiText v s :=
  State (mediaRecorder s) (audioChunks s) (session_id s)
    (recordBtn_disabled s) (stopBtn_disabled s) (statusText s)
    (spinner_display s) (audioPlayer_src s) (audioPlayer_display s)
    (audioPlayer_playing s) v (recorders s) (awaiting_device s) (requests s)
    (in_flight s) (timers s) (now s) (engine_wording s).
Definition set_recorders v s :=
  State (mediaRecorder s) (audioChunks s) (session_id s)
    (recordBtn_disabled s) (stopBtn_disabled s) (statusText s)
    (spinner_display s) (audioPlayer_src s) (audioPlayer_display s)
    (audioPlayer_playing s) (geminiText s) v (awaiting_device s) (requests s)
    (in_flight s) (timers s) (now s) (engine_wording s).
Definition set_awaiting_device v s :=
  State (mediaRecorder s) (audioChunks s) (session_id s)
    (recordBtn_disabled s) (stopBtn_disabled s) (statusText s)
    (spinner_display s) (audioPlayer_src s) (audioPlayer_display s)
    (audioPlayer_playing s) (geminiText s) (recorders s) v (requests s)
    (in_flight s) (timers s) (now s) (engine_wording s).
Definition set_requests v s :=
  State (mediaRecorder s) (audioChunks s) (session_id s)
    (recordBtn_disabled s) (stopBtn_disabled s) (statusText s)
    (spinner_display s) (audioPlayer_src s) (audioPlayer_display s)
    (audioPlayer_playing s) (geminiText s) (recorders s) (awaiting_device s)
    v (in_flight s) (timers s) (now s) (engine_wording s).
Definition set_in_flight v s :=
  State (mediaRecorder s) (audioChunks s) (session_id s)
    (recordBtn_disabled s) (stopBtn_disabled s) (statusText s)
    (spinner_display s) (audioPlayer_src s) (audioPlayer_display s)
    (audioPlayer_playing s) (geminiText s) (recorders s) (awaiting_device s)
    (requests s) v (timers s) (now s) (engine_wording s).
Definition set_timers v s :=
  State (mediaRecorder s) (audioChunks s) (session_id s)
    (recordBtn_disabled s) (stopBtn_disabled s) (statusText s)
    (spinner_display s) (audioPlayer_src s) (audioPlayer_display s)
    (audioPlayer_playing s) (geminiText s) (recorders s) (awaiting_device s)
    (requests s) (in_flight s) v (now s) (engine_wording s).
Definition set_now v s :=
  State (mediaRecorder s) (audioChunks s) (session_id s)
    (recordBtn_disabled s) (stopBtn_disabled s) (statusText s)
    (spinner_display s) (audioPlayer_src s) (audioPlayer_display s)
    (audioPlayer_playing s) (geminiText s) (recorders s) (awaiting_device s)
    (requests s) (in_flight s) (timers s) v (engine_wording s).

(** *** Handlers *)

(** [startRecording], up to [await navigator.mediaDevices.getUserMedia]:
    the request for the microphone is made and the call waits. *)
Definition startRecording (s : state) : state :=
  set_awaiting_device (S (awaiting_device s)) s.

(** [startRecording] after the [await].  With a stream, a new recorder is
    made and started (it is assumed that neither step throws on a live
    stream), the chunks are cleared and the page is reset; replacing the
    source of the player ends whatever it was playing.  Without a stream
    only the [catch] clause runs. *)
Definition startRecording_resume (granted : bool) (s : state) : state :=
  if granted then
    let s := set_mediaRecorder (Some (length (recorders s))) s in
    let s := set_audioChunks [] s in
    let s := set_recorders (recorders s ++ [Recording]) s in
    let s := set_recordBtn_disabled true s in
    let s := set_stopBtn_disabled false s in
    let s := set_statusText "🎤 Recording..." s in
    let s := set_geminiText "No response yet." s in
    let s := set_audioPlayer_display "none" s in
    let s := set_audioPlayer_src "" s in
    set_audioPlayer_playing false s
  else
    set_statusText "❌ Mic access denied. Please allow microphone access." s.

(** [mediaRecorder.ondataavailable] *)
Definition ondataavailable (data : blob) (s : state) : state :=
  if (0 <? blob_size data)%nat then
    set_audioChunks (audioChunks s ++ [data]) s
  else s.

(** [mediaRecorder.onstop], up to [await fetch(...)]. *)
Definition onstop (s : state) : state :=
  let blob := new_Blob (audioChunks s) "audio/webm" in
  let formData := [FormEntry "file" blob "recording.webm"] in
  let s := set_statusText "Processing your request..." s in
  let s := set_spinner_display "block" s in
  let s := set_requests
             (requests s ++
                [Request ("http://127.0.0.1:8000/agent/chat/" ++ session_id s)
                         "POST" formData]) s in
  set_in_flight (S (in_flight s)) s.

(** What the [catch] clause of [onstop] can receive: an error with a
    message of its own (the rejection of [fetch] or of [res.json()], or the
    [Error] that the script throws), or a [TypeError] of the engine. *)
Inductive thrown : Type :=
| Message (message : string)
| Engine (e : type_error).

(** [err.message] *)
Definition error_message (s : state) (err : thrown) : string :=
  match err with
  | Message message => message
  | Engine e => engine_wording s e
  end.

(** [data.k] inside the [try] block: the value, or the [TypeError] thrown
    for [null]. *)
Definition read (data : json) (k : string) : thrown + jsval :=
  match get_prop data k with
  | Some v => inr v
  | None => inl (Engine (NullRead k))
  end.

Definition incomplete_message : string :=
  "Incomplete response from server. Missing text or audio URL.".

(** [throw new Error(data.detail || "Incomplete response ...")]: the error
    that reaches the [catch] clause.  [new Error] turns its argument into a
    string, which can throw in its turn. *)
Definition throw_incomplete (data : json) : thrown :=
  match read data "detail" with
  | inl err => err
  | inr detail =>
      match ToString (or_else detail (Some (JStr incomplete_message))) with
      | Some message => Message message
      | None => Engine NoPrimitive
      end
  end.

(** The [try] block of [onstop] from [await fetch] up to the test
    [data.gemini_text && data.audio_url]: the error thrown, or the two
    fields that passed the test. *)
Definition turn_reply (o : fetch_outcome) : thrown + (jsval * jsval) :=
  match o with
  | NetworkError message => inl (Message message)
  | Responded _ (NotJson message) => inl (Message message)
  | Responded _ (Parsed data) =>
      match read data "gemini_text" with
      | inl err => inl err
      | inr text =>
          if truthy text then
            match read data "audio_url" with
            | inl err => inl err
            | inr url =>
                if truthy url then inr (text, url)
                else inl (throw_incomplete data)
            end
          else inl (throw_incomplete data)
      end
  end.

(** The [catch] clause of [onstop]. *)
Definition onstop_catch (err : thrown) (s : state) : state :=
  let s := set_spinner_display "none" s in
  set_statusText ("❌ Error processing: " ++ error_message s err) s.

(** [mediaRecorder.onstop] after the awaits.  The spinner is hidden after
    [res.json()], and again in the [catch] clause.  The assignments to
    [textContent] and [src] turn the value into a string; when that throws,
    the [catch] clause runs with what was assigned before left in place. *)
Definition onstop_resume (o : fetch_outcome) (s : state) : state :=
  let s := set_spinner_display "none" s in
  match turn_reply o with
  | inr (text, url) =>
      match ToString text with
      | Some t =>
          let s := set_geminiText t s in
          match ToString url with
          | Some u =>
              let s := set_audioPlayer_src u s in
              let s := set_audioPlayer_display "block" s in
              let s := set_audioPlayer_playing true s in
              set_statusText "✅ Response ready! I am listening again..." s
          | None => onstop_catch (Engine NoPrimitive) s
          end
      | None => onstop_catch (Engine NoPrimitive) s
      end
  | inl err => onstop_catch err s
  end.

(** The error that the [catch] clause receives, if it runs at all. *)
Definition turn_error (o : fetch_outcome) : option thrown :=
  match turn_reply o with
  | inl err => Some err
  | inr (text, url) =>
      match ToString text, ToString url with
      | Some _, Some _ => None
      | _, _ => Some (Engine NoPrimitive)
      end
  end.

(** [stopBtn.onclick].  [stop()] makes the recorder inactive at once; its
    events follow later. *)
Definition stopBtn_onclick (s : state) : state :=
  let s :=
    match mediaRecorder s with
    | Some r =>
        match recorders s !! r with
        | Some Recording => set_recorders (<[r := Stopping]> (recorders s)) s
        | _ => s
        end
    | None => s
    end in
  let s := set_recordBtn_disabled false s in
  set_stopBtn_disabled true s.

(** The listener for [ended] on the player: a timer for 500 ms. *)
Definition audioPlayer_onended (s : state) : state :=
  set_timers (timers s ++ [(now s + 500)%N]) s.

(** The callback of that timer. *)
Definition restart_callback (s : state) : state :=
  if negb (recordBtn_disabled s) then startRecording s else s.

(** *** The event loop *)

(** What can happen to the page.  A click is the user's; the others are
    the browser's: [getUserMedia] settles for the call of [startRecording]
    that waited longest, a recorder delivers data or its [stop] event, a
    [fetch] settles, the player reaches the end of its source, time passes,
    the timer that is due first fires. *)
Inductive event : Type :=
| ClickRecord
| ClickStop
| DeviceAccess (granted : bool)
| DataAvailable (r : nat) (data : blob)
| RecorderStop (r : nat)
| FetchSettled (o : fetch_outcome)
| PlaybackEnded
| Tick (ms : N)
| TimerFired.

(** A recorder still has events to deliver until its [stop] event. *)
Definition live (s : state) (r : nat) : bool :=
  match recorders s !! r with
  | Some Recording | Some Stopping => true
  | _ => false
  end.

(** One turn of the event loop; [None] when the event cannot happen in
    this state.  A click on a disabled button is not delivered, and the
    page stays as it is. *)
Definition step (e : event) (s : state) : option state :=
  match e with
  | ClickRecord =>
      Some (if recordBtn_disabled s then s else startRecording s)
  | ClickStop =>
      Some (if stopBtn_disabled s then s else stopBtn_onclick s)
  | DeviceAccess granted =>
      match awaiting_device s with
      | O => None
      | S n => Some (startRecording_resume granted (set_awaiting_device n s))
      end
  | DataAvailable r data =>
      if live s r then Some (ondataavailable data s) else None
  | RecorderStop r =>
      if live s r
      then Some (onstop (set_recorders (<[r := Stopped]> (recorders s)) s))
      else None
  | FetchSettled o =>
      match in_flight s with
      | O => None
      | S n => Some (onstop_resume o (set_in_flight n s))
      end
  | PlaybackEnded =>
      if audioPlayer_playing s
      then Some (audioPlayer_onended (set_audioPlayer_playing false s))
      else None
  | Tick ms => Some (set_now (now s + ms)%N s)
  | TimerFired =>
      match timers s with
      | due :: rest =>
          if (due <=? now s)%N
          then Some (restart_callback (set_timers rest s))
          else None
      | [] => None
      end
  end.

Fixpoint run (evs : list event) (s : state) : option state :=
  match evs with
  | [] => Some s
  | e :: rest =>
      match step e s with
      | Some s' => run rest s'
      | None => None
      end
  end.

(** The wording of V8. *)
Definition v8_wording (e : type_error) : string :=
  match e with
  | NullRead k => "Cannot read properties of null (reading '" ++ k ++ "')"
  | NoPrimitive => "Cannot convert object to primitive value"
  end.

(** The page when the script has loaded: [sid] is the result of
    [getOrCreateSessionId]; the state of the two buttons and the texts
    come from the HTML page, where the spinner and the player are taken to
    be hidden and the player to have no source; [wording] is that of the
    engine the page runs in. *)
Definition loaded (sid : string) (record_off stop_off : bool)
    (status reply : string) (wording : type_error -> string) : state :=
  {| mediaRecorder := None;
     audioChunks := [];
     session_id := sid;
     recordBtn_disabled := record_off;
     stopBtn_disabled := stop_off;
     statusText := status;
     spinner_display := "none";
     audioPlayer_src := "";
     audioPlayer_display := "none";
     audioPlayer_playing := false;
     geminiText := reply;
     recorders := [];
     awaiting_device := 0;
     requests := [];
     in_flight := 0;
     timers := [];
     now := 0;
     engine_wording := wording |}.

(** The top level of the script: [session_id = getOrCreateSessionId()]
    on the window [w], with the parser of the browser. *)
Definition script_load (uuid : string) (w : Session.window)
    (record_off stop_off : bool) (status reply : string)
    (wording : type_error -> string)
  : state * Session.window :=
  let (id, w') :=
    Session.getOrCreateSessionId Session.URLSearchParams_get uuid w in
  (loaded id record_off stop_off status reply wording, w').

(** Number of recorders that are capturing. *)
Definition capturing (s : state) : nat :=
  length (filter (fun r => r = Recording) (recorders s)).

(** What the browser holds for the script when it has just loaded: no
    recorder, no call waiting, no request, no timer, nothing playing.  The
    buttons and the texts are whatever the HTML page says. *)
Definition at_load (s : state) : Prop :=
  mediaRecorder s = None /\ audioChunks s = [] /\ recorders s = [] /\
  awaiting_device s = 0 /\ requests s = [] /\ in_flight s = 0 /\
  timers s = [] /\ audioPlayer_playing s = false.

(** Nothing is under way: no call of [startRecording] waits for the
    device, no request is unanswered, no timer is set, nothing is playing
    and every recorder has delivered its [stop] event. *)
Definition quiet (s : state) : Prop :=
  awaiting_device s = 0 /\ in_flight s = 0 /\ timers s = [] /\
  audioPlayer_playing s = false /\ Forall (eq Stopped) (recorders s).

(** Along [evs] from [s], at most one call of [startRecording] waits for
    the device at any time. *)
Fixpoint one_start_at_a_time (evs : list event) (s : state) : Prop :=
  awaiting_device s <= 1 /\
  match evs with
  | [] => True
  | e :: rest =>
      match step e s with
      | Some s' => one_start_at_a_time rest s'
      | None => True
      end
  end.

(** The discipline of the buttons.  A recorder that is capturing is the
    current one, and none is capturing while the record button is enabled
    or while a call of [startRecording] waits for the device. *)
Definition sole_capture (s : state) : Prop :=
  (forall r, recorders s !! r = Some Recording -> mediaRecorder s = Some r) /\
  (recordBtn_disabled s = false ->
   forall r, recorders s !! r <> Some Recording) /\
  (0 < awaiting_device s -> forall r, recorders s !! r <> Some Recording).



(** [data.k] where [data] is not [null]. *)
Definition field (data : json) (k : string) : jsval :=
  default None (get_prop data k).

Definition is_click_record (e : event) : bool :=
  match e with ClickRecord => true | _ => false end.

(** A field that is not there, or is the empty string. *)
Definition blank (v : jsval) : Prop := v = None \/ v = Some (JStr "").

(** A field that is a string if it is there, as the reply format has it. *)
Definition string_or_absent (v : jsval) : Prop :=
  match v with
  | None | Some (JStr _) => True
  | _ => False
  end.

(** The page used in the examples: identifier [S1], record button on,
    stop button off, in V8. *)
Definition page0 : state :=
  fst (script_load "3b241101-e2bb-4255-8caf-4136c566a962"
         (Session.Window "?session_id=S1" [])
         false true "Click Start" "No response yet." v8_wording).

(** A chunk of [n] bytes as a recorder delivers it. *)
Definition chunk (n : nat) : blob :=
  Blob (repeat x00 n) "audio/webm;codecs=opus".

(** Replies used in the examples. *)
Definition reply_hi : json :=
  JObj [("gemini_text", JStr "hi"); ("audio_url", JStr "u1")].

Definition reply_quota : json := JObj [("detail", JStr "quota exceeded")].

(** One turn recorded with the recorder [r] and sent: start, microphone
    granted, stop, the recorded data in one chunk of [n] bytes, the [stop]
    event. *)
Definition turn (r n : nat) : list event :=
  [ClickRecord; DeviceAccess true; ClickStop; DataAvailable r (chunk n);
   RecorderStop r].

(** The example page after its first turn has been recorded and sent. *)
Definition first_turn : list event := turn 0 30.

Definition submitted0 : state := default page0 (run first_turn page0).


(** Two turns recorded one after the other, the second sent before the
    first is answered. *)
Definition two_turns : list event := turn 0 30 ++ turn 1 5.

(** The turn of the scenario in the specification, with chunks of 10 and
    20 bytes, answered, played, and recording started again. *)
Definition scenario : list event :=
  [ClickRecord; DeviceAccess true; DataAvailable 0 (chunk 10);
   DataAvailable 0 (chunk 20); ClickStop; RecorderStop 0;
   FetchSettled (Responded true (Parsed reply_hi)); PlaybackEnded;
   Tick 500; TimerFired; DeviceAccess true].

(** Two clicks on the record button before the browser answers for the
    microphone, then both answers. *)
Definition double_click : list event :=
  [ClickRecord; ClickRecord; DeviceAccess true; DeviceAccess true].

(** The first turn is answered and the reply plays; the user clicks on
    record and the microphone is refused. *)
Definition denied_while_reply_plays : list event :=
  first_turn ++
  [FetchSettled (Responded true (Parsed reply_hi)); ClickRecord;
   DeviceAccess false].

(** The first turn is answered and played to the end; within the delay
    the user clicks on record, and the microphone has not been granted when
    the 500 ms are over. *)
Definition click_within_the_delay : list event :=
  first_turn ++
  [FetchSettled (Responded true (Parsed reply_hi)); PlaybackEnded;
   ClickRecord; Tick 500].

(** After two clicks on record, both granted, the second recorder is
    stopped by hand, its turn is answered and played to the end, and the
    delay passes; the first recorder was never stopped. *)
Definition played_with_recorder_left_behind : list event :=
  double_click ++
  [ClickStop; DataAvailable 1 (chunk 30); RecorderStop 1;
   FetchSettled (Responded true (Parsed reply_hi)); PlaybackEnded; Tick 500].

(** The example page after a click on the record button, before the
    browser has answered for the microphone. *)
Definition asked0 : state := default page0 (run [ClickRecord] page0).

Definition denied_message : string :=
  "❌ Mic access denied. Please allow microphone access.".

(** Number of recorders that have delivered their [stop] event. *)
Definition stopped_count (s : state) : nat :=
  length (filter (fun r => r = Stopped) (recorders s)).

(** The [stop] event of the recorder [r]. *)
Definition is_stop_of (r : nat) (e : event) : bool :=
  match e with
  | RecorderStop r' => Nat.eqb r r'
  | _ => false
  end.

(** A turn recorded by hand with the recorder [r]: a click on record, the
    microphone granted, a click on stop, the data in [chunks], the [stop]
    event. *)
Definition recorded_turn (r : nat) (chunks : list blob) : list event :=
  [ClickRecord; DeviceAccess true; ClickStop] ++
  map (DataAvailable r) chunks ++ [RecorderStop r].

(** The request that [onstop] makes for the session [sid] with the chunks
    [parts] in the buffer. *)
Definition chat_request (sid : string) (parts : list blob) : request :=
  Request ("http://127.0.0.1:8000/agent/chat/" ++ sid) "POST"
    [FormEntry "file" (new_Blob parts "audio/webm") "recording.webm"].

(** A reply plays to its end, [ms] milliseconds pass, the timer fires. *)
Definition played_out (ms : N) : list event :=
  [PlaybackEnded; Tick ms; TimerFired].

End Loop.

(** * Properties *)

Module SessionSpec.

Import Session.

(** A location that carries an identifier is left alone. *)
Lemma resolve_present (params_get : string -> string -> option string)
    (uuid id : string) (w : window) :
  params_get (location_search w) "session_id" = Some id ->
  id <> "" ->
  getOrCreateSessionId params_get uuid w = (id, w).
Proof.
  intros Hget Hne. unfold getOrCreateSessionId. rewrite Hget. simpl.
  destruct (String.eqb_spec id ""); [contradiction | reflexivity].
Qed.

(** Without one, the fresh identifier is returned and pushed. *)
Lemma resolve_absent (params_get : string -> string -> option string)
    (uuid : string) (w : window) :
  falsy (params_get (location_search w) "session_id") = true ->
  getOrCreateSessionId params_get uuid w
  = (uuid, pushState ("?session_id=" ++ uuid) w).
Proof.
  intros Hf. unfold getOrCreateSessionId. rewrite Hf. reflexivity.
Qed.

(** C6.  Resolving the session identifier is idempotent.  On a location
    whose [session_id] parameter holds a (non-empty) identifier, resolving
    twice returns that identifier both times and leaves the location and
    the history as they were, whatever identifiers the generator would have
    produced.  On a location without one ([get] gives [null] or the empty
    string) the generated identifier is returned and the location is
    updated by exactly one [pushState], which adds one history entry and
    loads nothing; resolving again on the updated location, whose query
    string now yields that identifier, returns it and changes nothing
    more. *)
Theorem session_resolution_idempotent
    (params_get : string -> string -> option string)
    (w : window) (uuid1 uuid2 : string) :
  (forall id,
      params_get (location_search w) "session_id" = Some id ->
      id <> "" ->
      getOrCreateSessionId params_get uuid1 w = (id, w) /\
      getOrCreateSessionId params_get uuid2
        (snd (getOrCreateSessionId params_get uuid1 w)) = (id, w)) /\
  (falsy (params_get (location_search w) "session_id") = true ->
   let w1 := snd (getOrCreateSessionId params_get uuid1 w) in
   fst (getOrCreateSessionId params_get uuid1 w) = uuid1 /\
   location_search w1 = "?session_id=" ++ uuid1 /\
   history_pushed w1 = (history_pushed w ++ [("?session_id=" ++ uuid1)%string])%list /\
   (params_get ("?session_id=" ++ uuid1) "session_id" = Some uuid1 ->
    uuid1 <> "" ->
    getOrCreateSessionId params_get uuid2 w1 = (uuid1, w1))).
Proof.
  split.
  - intros id Hget Hne.
    rewrite (resolve_present params_get uuid1 id w Hget Hne). simpl.
    split; [reflexivity |].
    apply resolve_present; assumption.
  - intros Hf w1. subst w1.
    rewrite (resolve_absent params_get uuid1 w Hf). simpl.
    repeat split.
    intros Hback Hne. apply resolve_present; assumption.
Qed.

(** The theorem at two concrete locations, with the parser of the
    browser: [?session_id=123] keeps [123]; the empty query string gets
    the generated identifier. *)
Lemma session_resolution_idempotent_witness :
  (getOrCreateSessionId URLSearchParams_get "u1" (Window "?session_id=123" [])
   = ("123", Window "?session_id=123" []) /\
   getOrCreateSessionId URLSearchParams_get "u2"
     (snd (getOrCreateSessionId URLSearchParams_get "u1"
             (Window "?session_id=123" [])))
   = ("123", Window "?session_id=123" [])) /\
  (let w1 := snd (getOrCreateSessionId URLSearchParams_get
                    "3b241101-e2bb-4255-8caf-4136c566a962" (Window "" [])) in
   fst (getOrCreateSessionId URLSearchParams_get
          "3b241101-e2bb-4255-8caf-4136c566a962" (Window "" []))
   = "3b241101-e2bb-4255-8caf-4136c566a962" /\
   location_search w1
   = "?session_id=" ++ "3b241101-e2bb-4255-8caf-4136c566a962" /\
   history_pushed w1
   = ([] ++ [("?session_id=" ++ "3b241101-e2bb-4255-8caf-4136c566a962")%string])%list /\
   (URLSearchParams_get
      ("?session_id=" ++ "3b241101-e2bb-4255-8caf-4136c566a962") "session_id"
    = Some "3b241101-e2bb-4255-8caf-4136c566a962" ->
    "3b241101-e2bb-4255-8caf-4136c566a962" <> "" ->
    getOrCreateSessionId URLSearchParams_get "u2" w1
    = ("3b241101-e2bb-4255-8caf-4136c566a962", w1))).
Proof.
  split.
  - apply (proj1 (session_resolution_idempotent URLSearchParams_get
                    (Window "?session_id=123" []) "u1" "u2") "123").
    + reflexivity.
    + discriminate.
  - apply (proj2 (session_resolution_idempotent URLSearchParams_get
                    (Window "" [])
                    "3b241101-e2bb-4255-8caf-4136c566a962" "u2")).
    reflexivity.
Defined.

(** The second resolution after a generated identifier, computed. *)
Example resolve_twice_from_empty :
  let r1 := getOrCreateSessionId URLSearchParams_get
              "3b241101-e2bb-4255-8caf-4136c566a962" (Window "" []) in
  let r2 := getOrCreateSessionId URLSearchParams_get "other" (snd r1) in
  fst r2 = fst r1 /\ snd r2 = snd r1 /\ length (history_pushed (snd r2)) = 1.
Proof. vm_compute. repeat split. Qed.

(** A [session_id] parameter that is present but empty counts as absent. *)
Example resolve_empty_parameter :
  getOrCreateSessionId URLSearchParams_get "u1" (Window "?session_id=" [])
  = ("u1", Window "?session_id=u1" ["?session_id=u1"]).
Proof. reflexivity. Qed.

End SessionSpec.

Module LoopSpec.

Import JS Loop.

#[local] Open Scope nat_scope.
#[local] Open Scope list_scope.

(** Unfolds the handlers and reads the fields off the assignments.  The
    assignments themselves stay folded: a field of an updated state
    reduces on its own. *)
Ltac handlers :=
  unfold startRecording_resume, startRecording, ondataavailable, onstop,
    onstop_resume, onstop_catch, stopBtn_onclick, audioPlayer_onended,
    restart_callback in *;
  cbn [mediaRecorder audioChunks session_id recordBtn_disabled
       stopBtn_disabled statusText spinner_display audioPlayer_src
       audioPlayer_display audioPlayer_playing geminiText recorders
       awaiting_device requests in_flight timers now engine_wording] in *;
  simpl in *.

(** The ways in which a settled request can end: an error before the
    assignments, an error in the first or in the second assignment, or the
    reply shown and played. *)
Ltac settle_cases o :=
  unfold onstop_resume;
  destruct (turn_reply o) as [? | [? ?]];
  [| match goal with
     | |- context [match ToString ?t with _ => _ end] =>
         destruct (ToString t) as [? |];
         [match goal with
          | |- context [match ToString ?u with _ => _ end] =>
              destruct (ToString u) as [? |]
          end |]
     end].

(** *** Running a list of events *)

Lemma run_app (evs1 evs2 : list event) (s : state) :
  run (evs1 ++ evs2) s =
  match run evs1 s with
  | Some s1 => run evs2 s1
  | None => None
  end.
Proof.
  revert s. induction evs1 as [| e evs1 IH]; intros s; simpl.
  - reflexivity.
  - destruct (step e s); [apply IH | reflexivity].
Qed.


(** *** The chunk buffer *)

Lemma ondataavailable_chunks (data : blob) (s : state) :
  audioChunks (ondataavailable data s)
  = audioChunks s ++ filter (fun c => 0 < blob_size c) [data].
Proof.
  unfold ondataavailable.
  destruct (0 <? blob_size data) eqn:E.
  - apply Nat.ltb_lt in E. handlers.
    rewrite filter_cons_True by exact E. reflexivity.
  - apply Nat.ltb_ge in E. rewrite filter_cons_False by lia.
    rewrite filter_nil, app_nil_r. reflexivity.
Qed.

(** [ondataavailable] touches nothing but the buffer. *)
Lemma ondataavailable_frame (data : blob) (s : state) :
  ondataavailable data s
  = set_audioChunks (audioChunks (ondataavailable data s)) s.
Proof.
  unfold ondataavailable. destruct (0 <? blob_size data); handlers;
    destruct s; reflexivity.
Qed.

Lemma run_data (r : nat) (chunks : list blob) (s : state) :
  live s r = true ->
  run (map (DataAvailable r) chunks) s
  = Some (set_audioChunks
            (audioChunks s ++ filter (fun c => 0 < blob_size c) chunks) s).
Proof.
  revert s. induction chunks as [| c chunks IH]; intros s Hlive.
  - simpl. rewrite filter_nil, app_nil_r. destruct s; reflexivity.
  - cbn [map run step]. rewrite Hlive.
    rewrite IH.
    + f_equal. rewrite (ondataavailable_frame c s) at 2.
      rewrite ondataavailable_chunks. handlers.
      rewrite <- app_assoc. rewrite <- filter_app. reflexivity.
    + rewrite ondataavailable_frame. exact Hlive.
Qed.

(** C7.  Chunks of zero length never enter the buffer, and a recorder that
    stops forwards whatever the buffer holds.  Part 1: after the
    [dataavailable] events for [chunks], the buffer is the old buffer
    followed by the chunks of positive size, in order.  Part 2: when the
    recorder [r] then delivers [stop], exactly one request is added, whose
    file is the concatenation of that buffer; this happens for every
    buffer.  Part 3: in particular with no chunk at all the request is
    still made, with a file of zero bytes. *)
Theorem zero_length_chunks_dropped_and_recording_forwarded
    (s : state) (r : nat) (chunks : list blob) :
  live s r = true ->
  audioChunks (fold_left (fun st c => ondataavailable c st) chunks s)
  = audioChunks s ++ filter (fun c => 0 < blob_size c) chunks /\
  (exists s',
      run (map (DataAvailable r) chunks ++ [RecorderStop r]) s = Some s' /\
      requests s'
      = requests s ++
        [Request ("http://127.0.0.1:8000/agent/chat/" ++ session_id s)%string "POST"
           [FormEntry "file"
              (new_Blob
                 (audioChunks s ++ filter (fun c => 0 < blob_size c) chunks)
                 "audio/webm")
              "recording.webm"]] /\
      in_flight s' = S (in_flight s)) /\
  (audioChunks s = [] ->
   Forall (fun c => blob_size c = 0) chunks ->
   exists s',
     run (map (DataAvailable r) chunks ++ [RecorderStop r]) s = Some s' /\
     requests s'
     = requests s ++
       [Request ("http://127.0.0.1:8000/agent/chat/" ++ session_id s)%string "POST"
          [FormEntry "file" (Blob [] "audio/webm") "recording.webm"]]).
Proof.
  intros Hlive.
  assert (Hrun : exists s',
      run (map (DataAvailable r) chunks ++ [RecorderStop r]) s = Some s' /\
      requests s'
      = requests s ++
        [Request ("http://127.0.0.1:8000/agent/chat/" ++ session_id s)%string "POST"
           [FormEntry "file"
              (new_Blob
                 (audioChunks s ++ filter (fun c => 0 < blob_size c) chunks)
                 "audio/webm")
              "recording.webm"]] /\
      in_flight s' = S (in_flight s)).
  { rewrite run_app, run_data by exact Hlive.
    cbn [run step].
    replace (live (set_audioChunks _ s) r) with (live s r) by reflexivity.
    rewrite Hlive. eexists. split; [reflexivity |].
    handlers. split; reflexivity. }
  split; [| split].
  - clear Hrun Hlive. revert s.
    induction chunks as [| c chunks IH]; intros s; simpl.
    + rewrite filter_nil, app_nil_r. reflexivity.
    + rewrite IH, ondataavailable_chunks, <- app_assoc, <- filter_app.
      reflexivity.
  - exact Hrun.
  - intros Hempty Hzero.
    destruct Hrun as (s' & Hr & Hreq & _). exists s'. split; [exact Hr |].
    rewrite Hreq, Hempty.
    replace (filter (fun c => 0 < blob_size c) chunks) with (@nil blob).
    + reflexivity.
    + symmetry. clear -Hzero. induction Hzero as [| c l Hc _ IH].
      * reflexivity.
      * rewrite filter_cons_False by lia. exact IH.
Qed.

(** *** Case analysis on one turn of the event loop *)

Ltac break_match_in H :=
  repeat match type of H with
         | context [match ?x with _ => _ end] => destruct x eqn:?
         | context [if ?b then _ else _] => destruct b eqn:?
         end.

Ltac break_match_goal :=
  repeat match goal with
         | |- context [match ?x with _ => _ end] => destruct x eqn:?
         | |- context [if ?b then _ else _] => destruct b eqn:?
         end.

(** Splits [H : step e s = Some s'] into the cases of [step] and replaces
    [s'] by the state the handler returns. *)
Ltac step_inv H :=
  unfold step in H; break_match_in H; try discriminate H;
  injection H as H; try subst.

(** *** The request *)

Lemma step_session_id (e : event) (s s' : state) :
  step e s = Some s' -> session_id s' = session_id s.
Proof.
  intros H. destruct e; step_inv H; handlers; break_match_goal; reflexivity.
Qed.




(** The chunk theorem on a recorder that has just started: chunks of 10,
    0 and 20 bytes leave two chunks in the buffer; and with nothing but
    empty chunks the [stop] event still sends a file, of no bytes. *)
Lemma zero_length_chunks_dropped_and_recording_forwarded_witness :
  live (startRecording_resume true page0) 0 = true /\
  audioChunks
    (fold_left (fun st c => ondataavailable c st)
       [chunk 10; chunk 0; chunk 20] (startRecording_resume true page0))
  = [chunk 10; chunk 20] /\
  exists s',
    run (map (DataAvailable 0) [chunk 0; chunk 0] ++ [RecorderStop 0])
        (startRecording_resume true page0) = Some s' /\
    requests s'
    = [Request "http://127.0.0.1:8000/agent/chat/S1" "POST"
         [FormEntry "file" (Blob [] "audio/webm") "recording.webm"]].
Proof.
  split; [reflexivity |].
  split.
  - apply (proj1 (zero_length_chunks_dropped_and_recording_forwarded
                    (startRecording_resume true page0) 0
                    [chunk 10; chunk 0; chunk 20] eq_refl)).
  - apply (proj2 (proj2 (zero_length_chunks_dropped_and_recording_forwarded
                           (startRecording_resume true page0) 0
                           [chunk 0; chunk 0] eq_refl))).
    + reflexivity.
    + repeat constructor.
Defined.

(** *** The reply *)

Lemma field_read (data : json) (k : string) :
  data <> JNull -> read data k = inr (field data k).
Proof.
  intros Hnn. unfold read, field, get_prop.
  destruct data; try reflexivity. contradiction.
Qed.

(** The error of an incomplete reply, on a body that is not [null]. *)
Lemma throw_incomplete_cases (data : json) :
  data <> JNull ->
  throw_incomplete data
  = if truthy (field data "detail")
    then match ToString (field data "detail") with
         | Some message => Message message
         | None => Engine NoPrimitive
         end
    else Message incomplete_message.
Proof.
  intros Hnn. unfold throw_incomplete. rewrite field_read by exact Hnn.
  unfold or_else. destruct (truthy (field data "detail")); reflexivity.
Qed.

(** The test [data.gemini_text && data.audio_url] on a body that is not
    [null]. *)
Lemma turn_reply_parsed (ok : bool) (data : json) :
  data <> JNull ->
  turn_reply (Responded ok (Parsed data))
  = if truthy (field data "gemini_text") && truthy (field data "audio_url")
    then inr (field data "gemini_text", field data "audio_url")
    else inl (throw_incomplete data).
Proof.
  intros Hnn. unfold turn_reply. rewrite !field_read by exact Hnn.
  destruct (truthy (field data "gemini_text"));
    destruct (truthy (field data "audio_url")); reflexivity.
Qed.

Lemma turn_reply_null (ok : bool) :
  turn_reply (Responded ok (Parsed JNull))
  = inl (Engine (NullRead "gemini_text")).
Proof. reflexivity. Qed.

Lemma null_or_not (data : json) : data = JNull \/ data <> JNull.
Proof. destruct data; [left; reflexivity | right; discriminate ..]. Qed.

(** What a settled request leaves on the page, case by case. *)
Lemma onstop_resume_failed (o : fetch_outcome) (err : thrown) (s : state) :
  turn_error o = Some err ->
  statusText (onstop_resume o s)
  = ("❌ Error processing: " ++ error_message s err)%string /\
  spinner_display (onstop_resume o s) = "none" /\
  audioPlayer_src (onstop_resume o s) = audioPlayer_src s /\
  audioPlayer_display (onstop_resume o s) = audioPlayer_display s /\
  audioPlayer_playing (onstop_resume o s) = audioPlayer_playing s.
Proof.
  unfold turn_error, onstop_resume.
  destruct (turn_reply o) as [e | [text url]].
  - intros [= <-]. unfold onstop_catch. simpl. repeat split.
  - destruct (ToString text) as [t |]; [destruct (ToString url) as [u |] |];
      [discriminate | |]; intros [= <-]; unfold onstop_catch; simpl;
      repeat split.
Qed.

Lemma onstop_resume_succeeded (o : fetch_outcome) (s : state) :
  turn_error o = None ->
  exists text url t u,
    turn_reply o = inr (text, url) /\
    ToString text = Some t /\ ToString url = Some u /\
    statusText (onstop_resume o s)
    = "✅ Response ready! I am listening again..." /\
    spinner_display (onstop_resume o s) = "none" /\
    geminiText (onstop_resume o s) = t /\
    audioPlayer_src (onstop_resume o s) = u /\
    audioPlayer_display (onstop_resume o s) = "block" /\
    audioPlayer_playing (onstop_resume o s) = true.
Proof.
  unfold turn_error, onstop_resume.
  destruct (turn_reply o) as [e | [text url]]; [discriminate |].
  destruct (ToString text) as [t |] eqn:Et; [| discriminate].
  destruct (ToString url) as [u |] eqn:Eu; [| discriminate].
  intros _. exists text, url, t, u. simpl. repeat split; assumption.
Qed.

Lemma onstop_resume_text (o : fetch_outcome) (s : state) :
  geminiText (onstop_resume o s)
  = match turn_reply o with
    | inr (text, _) => default (geminiText s) (ToString text)
    | inl _ => geminiText s
    end.
Proof.
  unfold onstop_resume.
  destruct (turn_reply o) as [e | [text url]]; [reflexivity |].
  destruct (ToString text) as [t |]; [destruct (ToString url) as [u |] |];
    reflexivity.
Qed.

(** C3, as the script has it.  Part 1: the [catch] clause runs exactly
    when [fetch] rejects, the body is not JSON, the body is [null], the
    parsed body has no truthy [gemini_text] or no truthy [audio_url], or a
    field that passed this test cannot be turned into a string.  It
    receives the error of the rejection; the engine's [TypeError] for
    [null] or for the conversion; or, for a field that did not pass, an
    error whose message is [detail] as a string if [detail] is truthy (the
    engine's [TypeError] if that conversion throws) and the generic message
    otherwise.  Part 2: then the status reads the cross mark,
    [Error processing:] and the message of that error, the spinner is
    hidden and the player is left as it was.  Part 3: the reply text is
    replaced only when the text was converted before the URL failed.
    Part 4: in every other case the reply is shown and played.  Part 5: the
    status of the response is not looked at. *)
Theorem turn_failure_as_implemented (o : fetch_outcome) (err : thrown) :
  (turn_error o = Some err <->
   (exists message, o = NetworkError message /\ err = Message message) \/
   (exists ok message,
       o = Responded ok (NotJson message) /\ err = Message message) \/
   (exists ok,
       o = Responded ok (Parsed JNull) /\
       err = Engine (NullRead "gemini_text")) \/
   (exists ok data,
       o = Responded ok (Parsed data) /\ data <> JNull /\
       truthy (field data "gemini_text") && truthy (field data "audio_url")
       = false /\
       err = if truthy (field data "detail")
             then match ToString (field data "detail") with
                  | Some message => Message message
                  | None => Engine NoPrimitive
                  end
             else Message incomplete_message) \/
   (exists ok data,
       o = Responded ok (Parsed data) /\ data <> JNull /\
       truthy (field data "gemini_text") && truthy (field data "audio_url")
       = true /\
       (ToString (field data "gemini_text") = None \/
        ToString (field data "audio_url") = None) /\
       err = Engine NoPrimitive)) /\
  (forall s : state,
      turn_error o = Some err ->
      statusText (onstop_resume o s)
      = ("❌ Error processing: " ++ error_message s err)%string /\
      spinner_display (onstop_resume o s) = "none" /\
      audioPlayer_src (onstop_resume o s) = audioPlayer_src s /\
      audioPlayer_display (onstop_resume o s) = audioPlayer_display s /\
      audioPlayer_playing (onstop_resume o s) = audioPlayer_playing s) /\
  (forall s : state,
      geminiText (onstop_resume o s)
      = match turn_reply o with
        | inr (text, _) => default (geminiText s) (ToString text)
        | inl _ => geminiText s
        end) /\
  (forall s : state,
      turn_error o = None ->
      statusText (onstop_resume o s)
      = "✅ Response ready! I am listening again..." /\
      audioPlayer_playing (onstop_resume o s) = true) /\
  (forall (payload : body) (s : state),
      onstop_resume (Responded true payload) s
      = onstop_resume (Responded false payload) s).
Proof.
  split; [| split; [| split; [| split]]].
  - unfold turn_error. split.
    + intros H. destruct o as [m | ok [m | data]].
      * left. simpl in H. exists m. split; congruence.
      * right; left. simpl in H. exists ok, m. split; congruence.
      * right; right.
        destruct (null_or_not data) as [-> | Hnn].
        -- left. exists ok. rewrite turn_reply_null in H.
           split; congruence.
        -- right. rewrite turn_reply_parsed in H by exact Hnn.
           destruct (truthy (field data "gemini_text")
                     && truthy (field data "audio_url")) eqn:Et.
           ++ right. exists ok, data.
              destruct (ToString (field data "gemini_text")) as [t |];
                [destruct (ToString (field data "audio_url")) as [u |] |];
                [discriminate | |]; repeat split; auto; congruence.
           ++ left. exists ok, data.
              rewrite throw_incomplete_cases in H by exact Hnn.
              repeat split; auto; congruence.
    + intros [(m & -> & ->) | [(ok & m & -> & ->) | [(ok & -> & ->) |
              [(ok & data & -> & Hnn & Ht & ->) |
               (ok & data & -> & Hnn & Ht & Hno & ->)]]]].
      * reflexivity.
      * reflexivity.
      * reflexivity.
      * rewrite turn_reply_parsed by exact Hnn. rewrite Ht.
        rewrite throw_incomplete_cases by exact Hnn. reflexivity.
      * rewrite turn_reply_parsed by exact Hnn. rewrite Ht.
        destruct Hno as [-> | Hu]; [reflexivity |].
        rewrite Hu. destruct (ToString (field data "gemini_text"));
          reflexivity.
  - intros s H. exact (onstop_resume_failed o err s H).
  - intros s. apply onstop_resume_text.
  - intros s H.
    destruct (onstop_resume_succeeded o s H)
      as (text & url & t & u & _ & _ & _ & Hst & _ & _ & _ & _ & Hp).
    split; assumption.
  - intros [m | data] s; reflexivity.
Qed.

(** The failure theorem on the reply of the quota scenario: an error
    status with [detail] in the body. *)
Lemma turn_failure_as_implemented_witness :
  turn_error (Responded false (Parsed reply_quota))
  = Some (Message "quota exceeded") /\
  statusText (onstop_resume (Responded false (Parsed reply_quota)) page0)
  = "❌ Error processing: quota exceeded".
Proof.
  pose proof (turn_failure_as_implemented
                (Responded false (Parsed reply_quota))
                (Message "quota exceeded"))
    as (Hiff & Hpage & _).
  assert (H : turn_error (Responded false (Parsed reply_quota))
              = Some (Message "quota exceeded")).
  { apply (proj2 Hiff). right; right; right; left.
    exists false, reply_quota.
    split; [reflexivity |]. split; [discriminate |].
    split; reflexivity. }
  split; [exact H |].
  destruct (Hpage page0 H) as (Hst & _). rewrite Hst. reflexivity.
Defined.

(** Against C3 as it is worded.  An error status does not make the turn
    fail: with both fields in the body the reply is accepted and played.
    And a failure does not always carry [detail] or the generic message:
    when [fetch] rejects, or when the body of an error response is not
    JSON, the message is the one of the error thrown. *)
Lemma error_status_with_both_fields_accepted :
  (turn_error (Responded false (Parsed reply_hi)) = None /\
   statusText (onstop_resume (Responded false (Parsed reply_hi)) page0)
   = "✅ Response ready! I am listening again..." /\
   geminiText (onstop_resume (Responded false (Parsed reply_hi)) page0)
   = "hi" /\
   audioPlayer_playing
     (onstop_resume (Responded false (Parsed reply_hi)) page0) = true) /\
  (statusText (onstop_resume (NetworkError "Failed to fetch") page0)
   = "❌ Error processing: Failed to fetch" /\
   "Failed to fetch" <> incomplete_message) /\
  (statusText
     (onstop_resume (Responded false (NotJson "Unexpected token 'I'")) page0)
   = "❌ Error processing: Unexpected token 'I'" /\
   "Unexpected token 'I'" <> incomplete_message).
Proof.
  repeat split; discriminate.
Qed.

(** C4.  A reply with a non-empty [gemini_text] and a non-empty
    [audio_url] takes the success path: when the request in flight settles
    with such a body, the reply text on the page is that [gemini_text], the
    source of the player is that [audio_url], the player is shown and
    playing, and the status announces the reply. *)
Theorem valid_reply_is_shown_and_played
    (s : state) (ok : bool) (data : json) (text url : string) :
  0 < in_flight s ->
  get_prop data "gemini_text" = Some (Some (JStr text)) ->
  get_prop data "audio_url" = Some (Some (JStr url)) ->
  text <> "" ->
  url <> "" ->
  exists s',
    step (FetchSettled (Responded ok (Parsed data))) s = Some s' /\
    geminiText s' = text /\
    audioPlayer_src s' = url /\
    audioPlayer_display s' = "block" /\
    audioPlayer_playing s' = true /\
    statusText s' = "✅ Response ready! I am listening again...".
Proof.
  intros Hfl Ht Hu Htne Hune.
  assert (Hr : turn_reply (Responded ok (Parsed data))
               = inr (Some (JStr text), Some (JStr url))).
  { unfold turn_reply, read. rewrite Ht, Hu. simpl.
    destruct (String.eqb_spec text ""); [contradiction |].
    destruct (String.eqb_spec url ""); [contradiction |].
    reflexivity. }
  unfold step. destruct (in_flight s) as [| n] eqn:E; [lia |].
  eexists. split; [reflexivity |].
  unfold onstop_resume. rewrite Hr. simpl. repeat split.
Qed.

(** The success theorem on the reply [{gemini_text: "hi", audio_url:
    "u1"}] to the first turn of the example page. *)
Lemma valid_reply_is_shown_and_played_witness :
  exists s',
    step (FetchSettled (Responded true (Parsed reply_hi))) submitted0
    = Some s' /\
    geminiText s' = "hi" /\
    audioPlayer_src s' = "u1" /\
    audioPlayer_display s' = "block" /\
    audioPlayer_playing s' = true /\
    statusText s' = "✅ Response ready! I am listening again...".
Proof.
  apply (valid_reply_is_shown_and_played submitted0 true reply_hi "hi" "u1").
  - vm_compute. lia.
  - reflexivity.
  - reflexivity.
  - discriminate.
  - discriminate.
Defined.

Lemma blank_not_truthy (v : jsval) : blank v -> truthy v = false.
Proof. intros [-> | ->]; reflexivity. Qed.

Lemma string_truthy_nonempty (v : jsval) :
  string_or_absent v -> truthy v = true ->
  exists t, v = Some (JStr t) /\ t <> "".
Proof.
  destruct v as [[| b | z n | t | l | l] |]; simpl; try contradiction;
    try discriminate.
  intros _ H. exists t. split; [reflexivity |].
  intros ->. discriminate.
Qed.

(** Against C9 as it is worded.  A reply whose two fields are empty arrays
    passes the test, since an array is truthy, and an empty array prints as
    the empty string: the turn succeeds, the player plays, and both the
    text shown and the source are empty. *)
Lemma empty_array_fields_succeed_blank :
  turn_error
    (Responded true
       (Parsed (JObj [("gemini_text", JArr []); ("audio_url", JArr [])])))
  = None /\
  statusText
    (onstop_resume
       (Responded true
          (Parsed (JObj [("gemini_text", JArr []); ("audio_url", JArr [])])))
       page0)
  = "✅ Response ready! I am listening again..." /\
  audioPlayer_playing
    (onstop_resume
       (Responded true
          (Parsed (JObj [("gemini_text", JArr []); ("audio_url", JArr [])])))
       page0) = true /\
  geminiText
    (onstop_resume
       (Responded true
          (Parsed (JObj [("gemini_text", JArr []); ("audio_url", JArr [])])))
       page0) = "" /\
  audioPlayer_src
    (onstop_resume
       (Responded true
          (Parsed (JObj [("gemini_text", JArr []); ("audio_url", JArr [])])))
       page0) = "".
Proof. repeat split. Qed.

(** C9, as the script has it.  An empty string in [gemini_text] or
    [audio_url] fails the turn like a missing field.  Part 1: when either
    field is missing or the empty string, the [catch] clause runs; for a
    body other than [null] it receives the error of the incomplete reply
    ([detail] or the generic text), the same in both cases; the reply text,
    the source of the player and whether it plays are left as they were,
    and the status shows the message of that error.  Part 2: so a turn whose
    two fields pass the test and are strings, as the reply format has them,
    succeeds with a non-empty text shown and a non-empty source set. *)
Theorem empty_field_is_failure (o : fetch_outcome) :
  (forall ok data,
      o = Responded ok (Parsed data) ->
      blank (field data "gemini_text") \/ blank (field data "audio_url") ->
      exists err,
        turn_reply o = inl err /\
        turn_error o = Some err /\
        (data <> JNull -> err = throw_incomplete data) /\
        forall s : state,
          geminiText (onstop_resume o s) = geminiText s /\
          audioPlayer_src (onstop_resume o s) = audioPlayer_src s /\
          audioPlayer_playing (onstop_resume o s) = audioPlayer_playing s /\
          statusText (onstop_resume o s)
          = ("❌ Error processing: " ++ error_message s err)%string) /\
  (forall text url,
      turn_reply o = inr (text, url) ->
      string_or_absent text ->
      string_or_absent url ->
      exists t u,
        text = Some (JStr t) /\ url = Some (JStr u) /\
        t <> "" /\ u <> "" /\
        turn_error o = None /\
        forall s : state,
          geminiText (onstop_resume o s) = t /\
          audioPlayer_src (onstop_resume o s) = u /\
          audioPlayer_playing (onstop_resume o s) = true).
Proof.
  split.
  - intros ok data -> Hblank.
    assert (Hfail : exists err,
               turn_reply (Responded ok (Parsed data)) = inl err /\
               (data <> JNull -> err = throw_incomplete data)).
    { destruct (null_or_not data) as [-> | Hnn].
      - eexists. split; [apply turn_reply_null | congruence].
      - exists (throw_incomplete data). split; [| reflexivity].
        rewrite turn_reply_parsed by exact Hnn.
        destruct Hblank as [H | H]; apply blank_not_truthy in H; rewrite H.
        + reflexivity.
        + rewrite andb_false_r. reflexivity. }
    destruct Hfail as (err & Hm & Hnn). exists err.
    assert (He : turn_error (Responded ok (Parsed data)) = Some err)
      by (unfold turn_error; rewrite Hm; reflexivity).
    split; [exact Hm |]. split; [exact He |]. split; [exact Hnn |].
    intros s.
    destruct (onstop_resume_failed _ err s He) as (Hst & _ & Hsrc & _ & Hp).
    rewrite onstop_resume_text, Hm. repeat split; assumption.
  - intros text url Hr Ht Hu.
    assert (truthy text = true /\ truthy url = true) as [Htt Hut].
    { destruct o as [m | ok [m | data]]; try discriminate Hr.
      unfold turn_reply in Hr.
      destruct (read data "gemini_text") as [m | t]; [discriminate |].
      destruct (truthy t) eqn:Et; [| discriminate].
      destruct (read data "audio_url") as [m | u]; [discriminate |].
      destruct (truthy u) eqn:Eu; [| discriminate].
      injection Hr as <- <-. split; assumption. }
    destruct (string_truthy_nonempty text Ht Htt) as (t & -> & Htne).
    destruct (string_truthy_nonempty url Hu Hut) as (u & -> & Hune).
    exists t, u.
    assert (He : turn_error o = None)
      by (unfold turn_error; rewrite Hr; reflexivity).
    repeat split; try assumption;
      unfold onstop_resume; rewrite Hr; reflexivity.
Qed.

(** The theorem on a reply whose [audio_url] is the empty string, and on
    the reply [hi] that succeeds. *)
Lemma empty_field_is_failure_witness :
  turn_error
    (Responded true
       (Parsed (JObj [("gemini_text", JStr "hi"); ("audio_url", JStr "")])))
  = Some (Message incomplete_message) /\
  (exists t u,
      t <> "" /\ u <> "" /\
      geminiText (onstop_resume (Responded true (Parsed reply_hi)) page0) = t /\
      audioPlayer_src (onstop_resume (Responded true (Parsed reply_hi)) page0)
      = u).
Proof.
  split.
  - destruct (proj1 (empty_field_is_failure
                       (Responded true
                          (Parsed (JObj [("gemini_text", JStr "hi");
                                         ("audio_url", JStr "")]))))
                true (JObj [("gemini_text", JStr "hi"); ("audio_url", JStr "")])
                eq_refl)
      as (err & _ & He & Hnn & _).
    + right. right. reflexivity.
    + rewrite He, Hnn by discriminate. reflexivity.
  - destruct (proj2 (empty_field_is_failure
                       (Responded true (Parsed reply_hi)))
                (Some (JStr "hi")) (Some (JStr "u1")) eq_refl I I)
      as (t & u & _ & _ & Ht & Hu & _ & Hpage).
    exists t, u. destruct (Hpage page0) as (Hg & Hs & _).
    repeat split; assumption.
Defined.

(** *** Refused access to the microphone *)

Lemma denial_step (s s' : state) :
  step (DeviceAccess false) s = Some s' ->
  S (awaiting_device s') = awaiting_device s /\
  s' = set_statusText denied_message (set_awaiting_device (awaiting_device s') s).
Proof.
  intros H. unfold step in H.
  destruct (awaiting_device s) as [| n] eqn:E; [discriminate |].
  injection H as <-. handlers. split; reflexivity.
Qed.

(** A start request, by click or by the restart timer, changes nothing on
    the page before the browser answers for the microphone. *)
Lemma start_request_frame (e : event) (s0 s : state) :
  e = ClickRecord \/ e = TimerFired ->
  step e s0 = Some s ->
  audioChunks s = audioChunks s0 /\
  recordBtn_disabled s = recordBtn_disabled s0 /\
  stopBtn_disabled s = stopBtn_disabled s0 /\
  statusText s = statusText s0 /\
  geminiText s = geminiText s0 /\
  audioPlayer_src s = audioPlayer_src s0 /\
  audioPlayer_display s = audioPlayer_display s0 /\
  audioPlayer_playing s = audioPlayer_playing s0.
Proof.
  intros [-> | ->] H; step_inv H; handlers; break_match_goal;
    repeat split; assumption.
Qed.

(** C10.  When access to the microphone is refused, the status text is
    the only thing on the page that changes: the chunk buffer, the enabled
    state of both buttons, the reply text, the source, visibility and
    playing state of the player, the spinner, the current recorder and all
    recorders are as before the refusal (the waiting call is over, which is
    the one other difference), and so as they were before the start
    request, click or timer, that the refusal answers. *)
Theorem denial_changes_status_only (s s' : state) :
  step (DeviceAccess false) s = Some s' ->
  s' = set_statusText denied_message
         (set_awaiting_device (awaiting_device s') s) /\
  (statusText s' = denied_message /\
   audioChunks s' = audioChunks s /\
   recordBtn_disabled s' = recordBtn_disabled s /\
   stopBtn_disabled s' = stopBtn_disabled s /\
   geminiText s' = geminiText s /\
   audioPlayer_src s' = audioPlayer_src s /\
   audioPlayer_display s' = audioPlayer_display s /\
   audioPlayer_playing s' = audioPlayer_playing s /\
   spinner_display s' = spinner_display s /\
   mediaRecorder s' = mediaRecorder s /\
   recorders s' = recorders s) /\
  (forall s0 e,
      e = ClickRecord \/ e = TimerFired ->
      step e s0 = Some s ->
      audioChunks s' = audioChunks s0 /\
      recordBtn_disabled s' = recordBtn_disabled s0 /\
      stopBtn_disabled s' = stopBtn_disabled s0 /\
      geminiText s' = geminiText s0 /\
      audioPlayer_src s' = audioPlayer_src s0 /\
      audioPlayer_display s' = audioPlayer_display s0 /\
      audioPlayer_playing s' = audioPlayer_playing s0).
Proof.
  intros H. destruct (denial_step s s' H) as (_ & Heq).
  assert (Hframe :
            statusText s' = denied_message /\
            audioChunks s' = audioChunks s /\
            recordBtn_disabled s' = recordBtn_disabled s /\
            stopBtn_disabled s' = stopBtn_disabled s /\
            geminiText s' = geminiText s /\
            audioPlayer_src s' = audioPlayer_src s /\
            audioPlayer_display s' = audioPlayer_display s /\
            audioPlayer_playing s' = audioPlayer_playing s /\
            spinner_display s' = spinner_display s /\
            mediaRecorder s' = mediaRecorder s /\
            recorders s' = recorders s)
    by (rewrite Heq; handlers; repeat split).
  split; [exact Heq |]. split; [exact Hframe |].
  intros s0 e He Hstart.
  destruct (start_request_frame e s0 s He Hstart)
    as (A1 & A2 & A3 & _ & A5 & A6 & A7 & A8).
  destruct Hframe as (_ & B1 & B2 & B3 & B5 & B6 & B7 & B8 & _).
  repeat split; congruence.
Qed.

(** The theorem on the example page: one click on the record button,
    refused. *)
Lemma denial_changes_status_only_witness :
  exists s',
    step (DeviceAccess false) asked0 = Some s' /\
    statusText s' = denied_message /\
    audioChunks s' = audioChunks page0 /\
    recordBtn_disabled s' = recordBtn_disabled page0 /\
    stopBtn_disabled s' = stopBtn_disabled page0 /\
    geminiText s' = geminiText page0 /\
    audioPlayer_src s' = audioPlayer_src page0 /\
    audioPlayer_display s' = audioPlayer_display page0 /\
    audioPlayer_playing s' = audioPlayer_playing page0.
Proof.
  eexists. split; [vm_compute; reflexivity |].
  match goal with
  | |- statusText ?s' = _ /\ _ =>
      pose proof (denial_changes_status_only asked0 s' eq_refl) as H
  end.
  destruct H as (_ & (Hst & _) & Hstart).
  split; [exact Hst |].
  apply (Hstart page0 ClickRecord); [left; reflexivity | reflexivity].
Defined.

Lemma all_stopped_lookup (l : list recorder) (r : nat) (x : recorder) :
  Forall (eq Stopped) l -> l !! r = Some x -> x = Stopped.
Proof.
  intros Hall Hl. rewrite Forall_forall in Hall.
  symmetry. apply Hall. eapply list_elem_of_lookup_2. exact Hl.
Qed.

Lemma all_stopped_not_live (s : state) (r : nat) :
  Forall (eq Stopped) (recorders s) -> live s r = false.
Proof.
  intros Hall. unfold live.
  destruct (recorders s !! r) as [x |] eqn:E; [| reflexivity].
  rewrite (all_stopped_lookup _ _ _ Hall E). reflexivity.
Qed.

(** On a quiet page only a click on the record button gets anything
    going: every other event leaves the page quiet, with the same
    recorders and the same requests. *)
Lemma quiet_step (e : event) (s s' : state) :
  quiet s -> is_click_record e = false -> step e s = Some s' ->
  quiet s' /\ recorders s' = recorders s /\ requests s' = requests s.
Proof.
  intros (Haw & Hfl & Htm & Hpl & Hall) Hclick Hstep.
  destruct e; try discriminate Hclick; unfold step in Hstep.
  - (* ClickStop *)
    destruct (stopBtn_disabled s).
    + injection Hstep as <-. repeat split; assumption.
    + injection Hstep as <-. unfold stopBtn_onclick.
      destruct (mediaRecorder s) as [r |];
        [destruct (recorders s !! r) as [x |] eqn:E;
         [rewrite (all_stopped_lookup _ _ _ Hall E) |] |];
        unfold quiet; handlers; repeat split; assumption.
  - rewrite Haw in Hstep. discriminate.
  - rewrite all_stopped_not_live in Hstep by exact Hall. discriminate.
  - rewrite all_stopped_not_live in Hstep by exact Hall. discriminate.
  - rewrite Hfl in Hstep. discriminate.
  - rewrite Hpl in Hstep. discriminate.
  - injection Hstep as <-. unfold quiet; handlers. repeat split; assumption.
  - rewrite Htm in Hstep. discriminate.
Qed.

Lemma quiet_run (evs : list event) (s s' : state) :
  quiet s -> forallb (fun e => negb (is_click_record e)) evs = true ->
  run evs s = Some s' ->
  quiet s' /\ recorders s' = recorders s /\ requests s' = requests s.
Proof.
  revert s. induction evs as [| e evs IH]; intros s Hq Hno Hrun.
  - injection Hrun as <-. split; [exact Hq | split; reflexivity].
  - simpl in Hno. apply andb_true_iff in Hno as [He Hno].
    apply negb_true_iff in He. simpl in Hrun.
    destruct (step e s) as [s1 |] eqn:E; [| discriminate].
    destruct (quiet_step e s s1 Hq He E) as (Hq1 & Hr1 & Hp1).
    destruct (IH s1 Hq1 Hno Hrun) as (Hq' & Hr' & Hp').
    split; [exact Hq' | split; congruence].
Qed.

(** Against C5 as it is worded.  The refusal cancels nothing that is
    under way.  When the microphone is refused while the reply to the turn
    before is playing, the playback ends, the delay passes and the timer
    calls [startRecording]: with the microphone granted this time, a
    recorder captures, and the last click on record was the one that was
    refused. *)
Lemma denial_while_reply_plays_restarts :
  exists s s',
    run denied_while_reply_plays page0 = Some s /\
    statusText s = denied_message /\
    forallb (fun e => negb (is_click_record e))
      [PlaybackEnded; Tick 500; TimerFired; DeviceAccess true] = true /\
    run [PlaybackEnded; Tick 500; TimerFired; DeviceAccess true] s = Some s' /\
    capturing s = 0 /\
    capturing s' = 1 /\
    recorders s' = recorders s ++ [Recording].
Proof.
  eexists. eexists.
  split; [vm_compute; reflexivity |].
  split; [vm_compute; reflexivity |].
  split; [reflexivity |].
  split; [vm_compute; reflexivity |].
  vm_compute. repeat split.
Qed.

(** C5, as the script has it.  When access to the microphone is refused,
    no request is made (neither the list of requests nor the number in
    flight changes), the buttons stay as they were, so that a record button
    that was enabled still takes a click, the status reports the refusal,
    and the refusal schedules nothing: no timer, no new request for the
    device, no recorder.  If the refused request was the only thing under
    way (no reply playing, no timer set, no request in flight, no recorder
    live, no other start waiting), the page is idle after the refusal, and
    whatever happens next short of a click on the record button, no
    recorder is made and no request is sent. *)
Theorem denial_returns_to_idle (s s' : state) :
  step (DeviceAccess false) s = Some s' ->
  (requests s' = requests s /\ in_flight s' = in_flight s) /\
  (recordBtn_disabled s' = recordBtn_disabled s /\
   stopBtn_disabled s' = stopBtn_disabled s) /\
  statusText s' = denied_message /\
  (timers s' = timers s /\ S (awaiting_device s') = awaiting_device s /\
   recorders s' = recorders s) /\
  (recordBtn_disabled s = false ->
   exists s'', step ClickRecord s' = Some s'' /\
               awaiting_device s'' = S (awaiting_device s')) /\
  (awaiting_device s = 1 ->
   in_flight s = 0 ->
   timers s = [] ->
   audioPlayer_playing s = false ->
   Forall (eq Stopped) (recorders s) ->
   quiet s' /\
   forall evs s'',
     forallb (fun e => negb (is_click_record e)) evs = true ->
     run evs s' = Some s'' ->
     recorders s'' = recorders s /\ requests s'' = requests s /\
     awaiting_device s'' = 0).
Proof.
  intros H. destruct (denial_step s s' H) as (Haw & Heq).
  assert (Hframe : requests s' = requests s /\ in_flight s' = in_flight s /\
                   recordBtn_disabled s' = recordBtn_disabled s /\
                   stopBtn_disabled s' = stopBtn_disabled s /\
                   statusText s' = denied_message /\
                   timers s' = timers s /\ recorders s' = recorders s /\
                   audioPlayer_playing s' = audioPlayer_playing s)
    by (rewrite Heq; handlers; repeat split).
  destruct Hframe as (H1 & H2 & H3 & H4 & H5 & H6 & H7 & H8).
  split; [split; assumption |].
  split; [split; assumption |].
  split; [assumption |].
  split; [repeat split; assumption |].
  split.
  - intros Hen. unfold step.
    replace (recordBtn_disabled s') with false
      by (rewrite Heq; handlers; congruence).
    eexists. split; reflexivity.
  - intros Hone Hfl Htm Hpl Hall.
    assert (Hq : quiet s').
    { unfold quiet. rewrite H2, H6, H7, H8.
      repeat split; try assumption. lia. }
    split; [exact Hq |].
    intros evs s'' Hno Hrun.
    destruct (quiet_run evs s' s'' Hq Hno Hrun) as ((Haw' & _) & Hr & Hp).
    repeat split; congruence.
Qed.

(** The theorem on the example page: the click is refused, and the events
    that follow without another click change nothing. *)
Lemma denial_returns_to_idle_witness :
  exists s',
    step (DeviceAccess false) asked0 = Some s' /\
    requests s' = requests asked0 /\
    quiet s' /\
    forall s'',
      run [ClickStop; Tick 1000; ClickStop] s' = Some s'' ->
      recorders s'' = recorders asked0 /\ requests s'' = requests asked0 /\
      awaiting_device s'' = 0.
Proof.
  eexists. split; [vm_compute; reflexivity |].
  match goal with
  | |- requests ?s' = _ /\ _ =>
      pose proof (denial_returns_to_idle asked0 s' eq_refl) as H
  end.
  destruct H as ((Hreq & _) & _ & _ & _ & _ & Hrest).
  destruct (Hrest eq_refl eq_refl eq_refl eq_refl (Forall_nil_2 _))
    as (Hq & Hafter).
  split; [exact Hreq |]. split; [exact Hq |].
  intros s'' Hrun.
  apply (Hafter [ClickStop; Tick 1000; ClickStop] s'' eq_refl Hrun).
Defined.

(** *** The timer that starts recording again *)

Lemma step_now (e : event) (s s' : state) :
  step e s = Some s' -> (now s <= now s')%N.
Proof.
  intros H. destruct e; step_inv H; handlers; break_match_goal; simpl; lia.
Qed.

Lemma run_now (evs : list event) (s s' : state) :
  run evs s = Some s' -> (now s <= now s')%N.
Proof.
  revert s. induction evs as [| e evs IH]; intros s H; simpl in H.
  - injection H as <-. lia.
  - destruct (step e s) as [s1 |] eqn:E; [| discriminate].
    apply step_now in E. apply IH in H. lia.
Qed.





Lemma at_load_page0 : at_load page0.
Proof. repeat split. Qed.


(** C1, where the script falls short of it.  The timer tests the record
    button, and the button is disabled only when the microphone has been
    granted and enabled again by every click on stop.  So the restart is
    not held back while a start request is still waiting for the
    microphone: after a click on record within the delay, the timer makes a
    second request, both are granted, and two recorders capture at once.
    Nor is it held back by a recorder that was left behind and still
    captures: the timer asks for the microphone beside it. *)
Lemma restart_fires_while_capture_is_armed :
  (exists s s' s'',
      run click_within_the_delay page0 = Some s /\
      awaiting_device s = 1 /\
      recordBtn_disabled s = false /\
      step TimerFired s = Some s' /\
      awaiting_device s' = 2 /\
      run [DeviceAccess true; DeviceAccess true] s' = Some s'' /\
      capturing s'' = 2) /\
  (exists s s',
      run played_with_recorder_left_behind page0 = Some s /\
      capturing s = 1 /\
      recordBtn_disabled s = false /\
      step TimerFired s = Some s' /\
      awaiting_device s' = S (awaiting_device s)).
Proof.
  split.
  - eexists. eexists. eexists.
    split; [vm_compute; reflexivity |].
    split; [vm_compute; reflexivity |].
    split; [vm_compute; reflexivity |].
    split; [vm_compute; reflexivity |].
    split; [vm_compute; reflexivity |].
    split; vm_compute; reflexivity.
  - eexists. eexists.
    split; [vm_compute; reflexivity |].
    split; [vm_compute; reflexivity |].
    split; [vm_compute; reflexivity |].
    split; vm_compute; reflexivity.
Qed.

(** *** One capture at a time *)

Lemma no_recording_filter (l : list recorder) :
  (forall r, l !! r <> Some Recording) ->
  filter (fun r => r = Recording) l = [].
Proof.
  induction l as [| x l IH]; intros H; [reflexivity |].
  rewrite filter_cons_False.
  - apply IH. intros r. apply (H (S r)).
  - intros ->. apply (H 0). reflexivity.
Qed.

Lemma sole_recording_count (l : list recorder) :
  (forall i j, l !! i = Some Recording -> l !! j = Some Recording -> i = j) ->
  length (filter (fun r => r = Recording) l) <= 1.
Proof.
  induction l as [| x l IH]; intros H; [simpl; lia |].
  destruct (decide (x = Recording)) as [-> | Hx].
  - rewrite filter_cons_True by reflexivity.
    rewrite no_recording_filter; [simpl; lia |].
    intros r Hr. specialize (H 0 (S r) eq_refl Hr). discriminate.
  - rewrite filter_cons_False by exact Hx.
    apply IH. intros i j Hi Hj.
    specialize (H (S i) (S j) Hi Hj). congruence.
Qed.

Lemma recording_exists (l : list recorder) :
  0 < length (filter (fun r => r = Recording) l) ->
  exists r, l !! r = Some Recording.
Proof.
  intros H.
  destruct (filter (fun r => r = Recording) l) as [| x rest] eqn:E;
    [simpl in H; lia |].
  assert (Hin : x ∈ filter (fun r => r = Recording) l)
    by (rewrite E; left).
  apply list_elem_of_filter in Hin as [-> Hin].
  apply list_elem_of_lookup_1 in Hin. exact Hin.
Qed.

Lemma sole_capture_load (s : state) : at_load s -> sole_capture s.
Proof.
  intros (_ & _ & Hrec & _). unfold sole_capture. rewrite Hrec.
  repeat split; intros; try discriminate.
Qed.

(** The discipline is kept by every turn of the loop, as long as no
    second call of [startRecording] comes to wait for the device. *)
Lemma sole_capture_step (e : event) (s s' : state) :
  sole_capture s ->
  awaiting_device s <= 1 ->
  awaiting_device s' <= 1 ->
  step e s = Some s' ->
  sole_capture s'.
Proof.
  intros Hinv Hle Hle' Hstep. pose proof Hinv as (Hcur & Hen & Haw).
  unfold sole_capture.
  destruct e; unfold step in Hstep.
  - (* ClickRecord *)
    destruct (recordBtn_disabled s) eqn:Eoff; injection Hstep as <-.
    + exact Hinv.
    + handlers. split; [exact Hcur |]. split; intros; apply Hen; reflexivity.
  - (* ClickStop *)
    destruct (stopBtn_disabled s) eqn:Eoff; injection Hstep as <-.
    + exact Hinv.
    + assert (Hnone : forall r,
                 recorders (stopBtn_onclick s) !! r <> Some Recording).
      { intros r Hr. unfold stopBtn_onclick in Hr.
        destruct (mediaRecorder s) as [c |] eqn:Ec.
        - destruct (recorders s !! c) as [[| |] |] eqn:Elc; handlers.
          + apply list_lookup_insert_Some in Hr
              as [(_ & Hx & _) | (Hne & Hr)]; [discriminate |].
            apply Hcur in Hr. congruence.
          + pose proof (Hcur _ Hr) as Hc. congruence.
          + pose proof (Hcur _ Hr) as Hc. congruence.
          + pose proof (Hcur _ Hr) as Hc. congruence.
        - handlers. apply Hcur in Hr. discriminate. }
      split; [intros r Hr; destruct (Hnone r Hr) |].
      split; intros _; exact Hnone.
  - (* DeviceAccess *)
    destruct (awaiting_device s) as [| n] eqn:En; [discriminate |].
    injection Hstep as <-.
    assert (Hnone : forall r, recorders s !! r <> Some Recording)
      by (apply Haw; lia).
    destruct granted; handlers.
    + split; [| split; [discriminate |]].
      * intros r Hr. apply lookup_snoc_Some in Hr as [(_ & Hr) | (-> & _)].
        -- destruct (Hnone r Hr).
        -- reflexivity.
      * intros Hpos. lia.
    + split; [exact Hcur |]. split; [exact Hen |]. intros _. exact Hnone.
  - (* DataAvailable *)
    destruct (live s r); [| discriminate]. injection Hstep as <-.
    rewrite ondataavailable_frame. handlers. exact Hinv.
  - (* RecorderStop *)
    destruct (live s r); [| discriminate]. injection Hstep as <-. handlers.
    assert (Hkeep : forall r',
               <[r := Stopped]> (recorders s) !! r' = Some Recording ->
               recorders s !! r' = Some Recording).
    { intros r' Hr.
      apply list_lookup_insert_Some in Hr as [(_ & Hx & _) | (_ & Hr)];
        [discriminate | exact Hr]. }
    split; [intros r' Hr; apply Hcur, Hkeep, Hr |].
    split; intros Hc r' Hr; apply Hkeep in Hr.
    + exact (Hen Hc r' Hr).
    + exact (Haw Hc r' Hr).
  - (* FetchSettled *)
    destruct (in_flight s) as [| n]; [discriminate |]. injection Hstep as <-.
    settle_cases o; handlers;
      exact Hinv.
  - (* PlaybackEnded *)
    destruct (audioPlayer_playing s); [| discriminate].
    injection Hstep as <-. handlers. exact Hinv.
  - (* Tick *)
    injection Hstep as <-. handlers. exact Hinv.
  - (* TimerFired *)
    destruct (timers s) as [| due rest]; [discriminate |].
    destruct (due <=? now s)%N; [| discriminate]. injection Hstep as <-.
    unfold restart_callback. simpl.
    destruct (recordBtn_disabled s) eqn:Eoff; handlers.
    + exact Hinv.
    + split; [exact Hcur |]. split; intros; apply Hen; reflexivity.
Qed.

Lemma sole_capture_run (evs : list event) (s s' : state) :
  sole_capture s ->
  one_start_at_a_time evs s ->
  run evs s = Some s' ->
  sole_capture s' /\ awaiting_device s' <= 1.
Proof.
  revert s. induction evs as [| e evs IH]; intros s Hinv Hone Hrun.
  - injection Hrun as <-. split; [exact Hinv | apply Hone].
  - simpl in Hrun, Hone. destruct Hone as (Hle & Hone).
    destruct (step e s) as [s1 |] eqn:E; [| discriminate].
    apply (IH s1); [| exact Hone | exact Hrun].
    apply (sole_capture_step e s s1 Hinv Hle); [| exact E].
    destruct evs; apply Hone.
Qed.

(** C2, as the script has it.  Take any run from the loaded page in which
    no start request is made while another still waits for the microphone.
    Then at most one recorder is capturing at any time; and while one is,
    the record button is disabled, so that a click on it changes nothing
    and the restart timer, if it fires, only goes away: neither asks for
    the microphone nor makes a recorder.  Requests are not limited in the
    same way: the stop handler enables the record button at once, and the
    next turn may be recorded and sent before the last one is answered. *)
Theorem start_while_capturing_is_noop
    (s0 s : state) (evs : list event) :
  at_load s0 ->
  one_start_at_a_time evs s0 ->
  run evs s0 = Some s ->
  capturing s <= 1 /\
  (0 < capturing s ->
   recordBtn_disabled s = true /\
   awaiting_device s = 0 /\
   step ClickRecord s = Some s /\
   forall s',
     step TimerFired s = Some s' ->
     s' = set_timers (tail (timers s)) s /\
     capturing s' = capturing s /\
     awaiting_device s' = awaiting_device s).
Proof.
  intros Hload Hone Hrun.
  destruct (sole_capture_run evs s0 s (sole_capture_load s0 Hload) Hone Hrun)
    as ((Hcur & Hen & Haw) & Hle).
  split.
  - apply sole_recording_count. intros i j Hi Hj.
    apply Hcur in Hi, Hj. congruence.
  - intros Hpos. apply recording_exists in Hpos as (r & Hr).
    assert (Hoff : recordBtn_disabled s = true).
    { destruct (recordBtn_disabled s) eqn:E; [reflexivity |].
      destruct (Hen eq_refl r Hr). }
    assert (Hnone : awaiting_device s = 0).
    { destruct (awaiting_device s) as [| n] eqn:E; [reflexivity |].
      exfalso. apply (Haw ltac:(lia) r Hr). }
    split; [exact Hoff |]. split; [exact Hnone |].
    split.
    + unfold step. rewrite Hoff. reflexivity.
    + intros s' Hfire. unfold step in Hfire.
      destruct (timers s) as [| due rest]; [discriminate |].
      destruct (due <=? now s)%N; [| discriminate].
      injection Hfire as <-. unfold restart_callback.
      replace (recordBtn_disabled (set_timers rest s)) with true
        by (symmetry; exact Hoff).
      repeat split.
Qed.

(** The theorem on the example page while the first turn is being
    recorded: one recorder, and a click on the record button does
    nothing. *)
Lemma start_while_capturing_is_noop_witness :
  exists s,
    run [ClickRecord; DeviceAccess true] page0 = Some s /\
    capturing s = 1 /\
    step ClickRecord s = Some s.
Proof.
  eexists. split; [vm_compute; reflexivity |].
  match goal with
  | |- capturing ?s = 1 /\ _ =>
      assert (Hrun : run [ClickRecord; DeviceAccess true] page0 = Some s)
        by (vm_compute; reflexivity);
      assert (Hone : one_start_at_a_time [ClickRecord; DeviceAccess true]
                       page0)
        by (vm_compute; repeat split; lia);
      destruct (start_while_capturing_is_noop page0 s _
                  at_load_page0 Hone Hrun) as (_ & Hbusy)
  end.
  split; [vm_compute; reflexivity |].
  apply Hbusy. vm_compute. lia.
Defined.

(** Against C2 as it is worded.  The stop handler enables the record
    button at once, so a second turn can be recorded and sent while the
    first request is not answered: after [two_turns], in which no two start
    requests wait for the microphone together, a recorder was capturing
    while one request was in flight, and two requests are in flight at the
    end. *)
Lemma second_turn_overlaps_first :
  one_start_at_a_time two_turns page0 /\
  (exists s,
      run (turn 0 30 ++ [ClickRecord; DeviceAccess true]) page0 = Some s /\
      capturing s = 1 /\ in_flight s = 1) /\
  (exists s,
      run two_turns page0 = Some s /\
      in_flight s = 2 /\ length (requests s) = 2).
Proof.
  split; [vm_compute; repeat split; lia |].
  split; eexists; (split; [vm_compute; reflexivity |]);
    vm_compute; split; reflexivity.
Qed.

(** The case the theorem leaves aside: two clicks before the browser has
    answered for the microphone make two recorders that capture at the
    same time; the first is never stopped by the stop button. *)
Example double_click_two_recorders :
  exists s,
    run double_click page0 = Some s /\
    capturing s = 2 /\
    mediaRecorder s = Some 1 /\
    forall s',
      run [ClickStop] s = Some s' -> recorders s' = [Recording; Stopping].
Proof.
  eexists. split; [vm_compute; reflexivity |].
  split; [vm_compute; reflexivity |].
  split; [reflexivity |].
  intros s' H. vm_compute in H. injection H as <-. reflexivity.
Qed.

(** *** The whole first turn *)

(** The scenario of the specification: chunks of 10 and 20 bytes are sent
    as one file of 30 bytes for the session [S1]; the reply [hi] is shown
    and [u1] is played; after the playback and the delay the microphone is
    asked for again, and recording starts when it is granted. *)
Example first_turn_end_to_end :
  (exists s,
      run (firstn 7 scenario) page0 = Some s /\
      map (fun q => (req_url q,
                     map (fun en => length (blob_data (entry_value en)))
                         (req_body q)))
          (requests s)
      = [("http://127.0.0.1:8000/agent/chat/S1", [30])] /\
      geminiText s = "hi" /\
      audioPlayer_src s = "u1" /\
      audioPlayer_playing s = true) /\
  (exists s,
      run scenario page0 = Some s /\
      capturing s = 1 /\
      statusText s = "🎤 Recording...").
Proof.
  split; eexists; (split; [vm_compute; reflexivity |]);
    vm_compute; repeat split.
Qed.

End LoopSpec.

(** * Further properties *)

Module SessionMore.

Import Session SessionSpec.

Lemma uuid_char_plain (c : ascii) :
  uuid_char c = true ->
  Ascii.eqb c "&" = false /\ Ascii.eqb c "=" = false /\
  Ascii.eqb c "+" = false /\ Ascii.eqb c "%" = false.
Proof.
  intros H.
  repeat split;
    match goal with
    | |- Ascii.eqb c ?d = false =>
        destruct (Ascii.eqb_spec c d) as [-> |]; [discriminate H | reflexivity]
    end.
Qed.

Lemma split_on_uuid (u : string) :
  uuid_chars u = true -> split_on "&" u = [u].
Proof.
  induction u as [| c u IH]; intros H; [reflexivity |].
  simpl in H. apply andb_true_iff in H as [Hc Hu].
  destruct (uuid_char_plain c Hc) as (Hamp & _).
  simpl. rewrite Hamp, (IH Hu). reflexivity.
Qed.

Lemma plus_to_space_uuid (u : string) :
  uuid_chars u = true -> plus_to_space u = u.
Proof.
  induction u as [| c u IH]; intros H; [reflexivity |].
  simpl in H. apply andb_true_iff in H as [Hc Hu].
  destruct (uuid_char_plain c Hc) as (_ & _ & Hplus & _).
  simpl. rewrite Hplus, (IH Hu). reflexivity.
Qed.

Lemma percent_decode_uuid (u : string) :
  uuid_chars u = true -> percent_decode u = u.
Proof.
  induction u as [| c u IH]; intros H; [reflexivity |].
  simpl in H. apply andb_true_iff in H as [Hc Hu].
  destruct (uuid_char_plain c Hc) as (_ & _ & _ & Hpct).
  specialize (IH Hu).
  destruct u as [| h [| l u']]; simpl in *; rewrite ?Hpct; congruence.
Qed.

Lemma uuid_char_ascii (c : ascii) :
  uuid_char c = true -> (Ascii.N_of_ascii c <=? 127)%N = true.
Proof.
  unfold uuid_char. intros H. apply N.leb_le.
  apply orb_true_iff in H as [H | H];
    [apply orb_true_iff in H as [H | H];
     apply andb_true_iff in H as [_ H]; apply N.leb_le in H; lia |].
  apply N.eqb_eq in H. lia.
Qed.

Lemma utf8_decode_uuid (u : string) :
  uuid_chars u = true -> utf8_decode u = u.
Proof.
  unfold utf8_decode.
  induction u as [| c u IH]; intros H; [reflexivity |].
  simpl in H. apply andb_true_iff in H as [Hc Hu].
  cbn [utf8_decode_from]. unfold utf8_lead.
  rewrite (uuid_char_ascii c Hc). cbn [String.append].
  rewrite (IH Hu). reflexivity.
Qed.

(** The query string that [getOrCreateSessionId] writes reads back as the
    identifier it was written with. *)
Lemma written_query_reads_back (u : string) :
  uuid_chars u = true ->
  URLSearchParams_get ("?session_id=" ++ u) "session_id" = Some u.
Proof.
  intros H. unfold URLSearchParams_get, parse_query.
  assert (Hsplit : split_on "&" (strip_question ("?session_id=" ++ u))
                   = [("session_id=" ++ u)%string]).
  { cbv [String.append]. simpl. rewrite (split_on_uuid u H). reflexivity. }
  rewrite Hsplit. cbv [String.append]. simpl.
  unfold form_decode.
  rewrite (plus_to_space_uuid u H), (percent_decode_uuid u H),
    (utf8_decode_uuid u H).
  reflexivity.
Qed.

Lemma written_query_parses (u : string) :
  uuid_chars u = true ->
  parse_query ("?session_id=" ++ u) = [("session_id", u)].
Proof.
  intros H. unfold parse_query.
  assert (Hsplit : split_on "&" (strip_question ("?session_id=" ++ u))
                   = [("session_id=" ++ u)%string]).
  { cbv [String.append]. simpl. rewrite (split_on_uuid u H). reflexivity. }
  rewrite Hsplit. cbv [String.append]. simpl.
  unfold form_decode.
  rewrite (plus_to_space_uuid u H), (percent_decode_uuid u H),
    (utf8_decode_uuid u H).
  reflexivity.
Qed.

(** X1.  A generated identifier survives a reload.  When the location has
    no identifier and the generator returns a non-empty string of UUID
    characters, the query string that is written parses back, with the
    parser of the browser, to that identifier: the next resolution on the
    updated location returns it, whatever the generator would return then,
    and leaves the location alone; one history entry was added in all. *)
Theorem generated_identifier_survives_reload
    (w : window) (uuid other : string) :
  uuid_chars uuid = true ->
  uuid <> "" ->
  falsy (URLSearchParams_get (location_search w) "session_id") = true ->
  let r1 := getOrCreateSessionId URLSearchParams_get uuid w in
  fst r1 = uuid /\
  URLSearchParams_get (location_search (snd r1)) "session_id" = Some uuid /\
  getOrCreateSessionId URLSearchParams_get other (snd r1) = (uuid, snd r1) /\
  length (history_pushed (snd r1)) = S (length (history_pushed w)).
Proof.
  intros Hchars Hne Hf r1. subst r1.
  rewrite (resolve_absent URLSearchParams_get uuid w Hf). simpl.
  pose proof (written_query_reads_back uuid Hchars) as Hback.
  split; [reflexivity |]. split; [exact Hback |].
  split.
  - apply resolve_present; [exact Hback | exact Hne].
  - rewrite length_app. simpl. lia.
Qed.

(** The theorem on an empty query string and a UUID. *)
Lemma generated_identifier_survives_reload_witness :
  let r1 := getOrCreateSessionId URLSearchParams_get
              "3b241101-e2bb-4255-8caf-4136c566a962" (Window "" []) in
  fst r1 = "3b241101-e2bb-4255-8caf-4136c566a962" /\
  URLSearchParams_get (location_search (snd r1)) "session_id"
  = Some "3b241101-e2bb-4255-8caf-4136c566a962" /\
  getOrCreateSessionId URLSearchParams_get "11111111-2222-4333-8444-555555555555"
    (snd r1)
  = ("3b241101-e2bb-4255-8caf-4136c566a962", snd r1) /\
  length (history_pushed (snd r1)) = 1.
Proof.
  apply (generated_identifier_survives_reload (Window "" [])
           "3b241101-e2bb-4255-8caf-4136c566a962"
           "11111111-2222-4333-8444-555555555555").
  - reflexivity.
  - discriminate.
  - reflexivity.
Defined.

(** X2.  Generating an identifier drops the rest of the query string.  The
    location is replaced by the one parameter [session_id]: after an
    identifier of UUID characters has been generated, every other parameter
    name reads as [null], whatever the location held before. *)
Theorem generating_drops_other_parameters
    (w : window) (uuid name : string) :
  uuid_chars uuid = true ->
  falsy (URLSearchParams_get (location_search w) "session_id") = true ->
  name <> "session_id" ->
  let w1 := snd (getOrCreateSessionId URLSearchParams_get uuid w) in
  parse_query (location_search w1) = [("session_id", uuid)] /\
  URLSearchParams_get (location_search w1) name = None.
Proof.
  intros Hchars Hf Hname w1. subst w1.
  rewrite (resolve_absent URLSearchParams_get uuid w Hf). simpl.
  pose proof (written_query_parses uuid Hchars) as Hparse.
  split; [exact Hparse |].
  unfold URLSearchParams_get. rewrite Hparse. cbn [List.find fst].
  destruct (String.eqb_spec "session_id" name) as [E |]; [| reflexivity].
  congruence.
Qed.

(** The theorem on a location that had [lang=en]. *)
Lemma generating_drops_other_parameters_witness :
  URLSearchParams_get "?lang=en" "lang" = Some "en" /\
  let w1 := snd (getOrCreateSessionId URLSearchParams_get
                   "3b241101-e2bb-4255-8caf-4136c566a962"
                   (Window "?lang=en" [])) in
  parse_query (location_search w1)
  = [("session_id", "3b241101-e2bb-4255-8caf-4136c566a962")] /\
  URLSearchParams_get (location_search w1) "lang" = None.
Proof.
  split; [reflexivity |].
  apply (generating_drops_other_parameters (Window "?lang=en" [])
           "3b241101-e2bb-4255-8caf-4136c566a962" "lang").
  - reflexivity.
  - reflexivity.
  - discriminate.
Defined.

End SessionMore.

Module LoopMore.

Import JS Loop LoopSpec.

#[local] Open Scope nat_scope.
#[local] Open Scope list_scope.

(** *** Lists of recorders *)

Lemma snoc_lookup {A} (l : list A) (x : A) : (l ++ [x]) !! length l = Some x.
Proof. apply list_lookup_middle. reflexivity. Qed.

Lemma snoc_insert {A} (l : list A) (x y : A) :
  <[length l := y]> (l ++ [x]) = l ++ [y].
Proof.
  replace (length l) with (length l + 0) by lia.
  rewrite insert_app_r. reflexivity.
Qed.

(** *** The stop button *)

Lemma stop_click_recorders (s : state) (r : nat) :
  recorders (stopBtn_onclick s) !! r
  = if decide (mediaRecorder s = Some r /\ recorders s !! r = Some Recording)
    then Some Stopping else recorders s !! r.
Proof.
  unfold stopBtn_onclick.
  destruct (mediaRecorder s) as [c |] eqn:Ec.
  - destruct (recorders s !! c) as [x |] eqn:Ex.
    + destruct x; handlers.
      * destruct (decide (c = r)) as [-> | Hne].
        -- rewrite list_lookup_insert_eq
             by (eapply lookup_lt_Some; eassumption).
           rewrite decide_True by (split; [reflexivity | assumption]).
           reflexivity.
        -- rewrite list_lookup_insert_ne by exact Hne.
           rewrite decide_False; [reflexivity |].
           intros [[= E] _]. contradiction.
      * case_decide as Hd; [| reflexivity].
        destruct Hd as [[= <-] Hd]. congruence.
      * case_decide as Hd; [| reflexivity].
        destruct Hd as [[= <-] Hd]. congruence.
    + handlers. case_decide as Hd; [| reflexivity].
      destruct Hd as [[= <-] Hd]. congruence.
  - handlers. reflexivity.
Qed.

Lemma stop_click_frame (s : state) :
  recordBtn_disabled (stopBtn_onclick s) = false /\
  stopBtn_disabled (stopBtn_onclick s) = true /\
  mediaRecorder (stopBtn_onclick s) = mediaRecorder s /\
  audioChunks (stopBtn_onclick s) = audioChunks s /\
  requests (stopBtn_onclick s) = requests s /\
  in_flight (stopBtn_onclick s) = in_flight s /\
  statusText (stopBtn_onclick s) = statusText s /\
  geminiText (stopBtn_onclick s) = geminiText s /\
  timers (stopBtn_onclick s) = timers s /\
  awaiting_device (stopBtn_onclick s) = awaiting_device s.
Proof.
  unfold stopBtn_onclick.
  destruct (mediaRecorder s) as [c |] eqn:Ec;
    [destruct (recorders s !! c) as [[| |] |] |]; handlers;
    repeat split; assumption.
Qed.

(** X3.  A click on the enabled stop button stops the current recorder if
    it is recording and no other: every recorder that is not the current
    one, and the current one when it is not recording, keeps its state; with
    no recorder yet the click only switches the buttons.  Afterwards the
    record button is enabled and the stop button disabled, so a second
    click on stop changes nothing.  The click itself sends nothing and
    leaves the chunks, the status and the reply on the page alone: the
    request is made only when the recorder delivers its [stop] event. *)
Theorem stop_click_stops_current_recorder_only (s s' : state) :
  stopBtn_disabled s = false ->
  step ClickStop s = Some s' ->
  (recordBtn_disabled s' = false /\ stopBtn_disabled s' = true) /\
  (forall r,
      mediaRecorder s = Some r -> recorders s !! r = Some Recording ->
      recorders s' !! r = Some Stopping) /\
  (forall r,
      mediaRecorder s <> Some r \/ recorders s !! r <> Some Recording ->
      recorders s' !! r = recorders s !! r) /\
  (mediaRecorder s = None -> recorders s' = recorders s) /\
  (mediaRecorder s' = mediaRecorder s /\ audioChunks s' = audioChunks s /\
   requests s' = requests s /\ in_flight s' = in_flight s /\
   statusText s' = statusText s /\ geminiText s' = geminiText s /\
   timers s' = timers s /\ awaiting_device s' = awaiting_device s) /\
  step ClickStop s' = Some s'.
Proof.
  intros Hon Hstep. unfold step in Hstep. rewrite Hon in Hstep.
  injection Hstep as <-.
  destruct (stop_click_frame s)
    as (F1 & F2 & F3 & F4 & F5 & F6 & F7 & F8 & F9 & F10).
  split; [split; assumption |].
  split.
  { intros r Hc Hr.
    rewrite stop_click_recorders, decide_True by (split; assumption).
    reflexivity. }
  split.
  { intros r Hor. rewrite stop_click_recorders, decide_False; [reflexivity |].
    intros [Hc Hr]. destruct Hor; contradiction. }
  split.
  { intros Hnone. apply list_eq. intros r.
    rewrite stop_click_recorders, decide_False; [reflexivity |].
    rewrite Hnone. intros [Hc _]. discriminate. }
  split; [repeat split; assumption |].
  unfold step. rewrite F2. reflexivity.
Qed.

(** The theorem on the example page while the first turn is recorded. *)
Lemma stop_click_stops_current_recorder_only_witness :
  exists s s',
    run [ClickRecord; DeviceAccess true] page0 = Some s /\
    step ClickStop s = Some s' /\
    recorders s' !! 0 = Some Stopping /\
    requests s' = requests s /\
    step ClickStop s' = Some s'.
Proof.
  eexists. eexists.
  split; [vm_compute; reflexivity |].
  split; [vm_compute; reflexivity |].
  match goal with
  | |- recorders ?s' !! 0 = _ /\ requests _ = requests ?s /\ _ =>
      assert (Hon : stopBtn_disabled s = false) by reflexivity;
      assert (Hstep : step ClickStop s = Some s')
        by (vm_compute; reflexivity);
      destruct (stop_click_stops_current_recorder_only s s' Hon Hstep)
        as (_ & Hcur & _ & _ & (_ & _ & Hreq & _) & Hagain)
  end.
  split; [apply Hcur; reflexivity |].
  split; [exact Hreq | exact Hagain].
Defined.

(** *** A whole turn *)

(** A click on the enabled record button, the microphone granted, a click
    on stop: a new recorder, stopping, is the current one; the buffer is
    empty; nothing was sent. *)
Lemma start_grant_stop (s : state) :
  recordBtn_disabled s = false ->
  exists s3,
    run [ClickRecord; DeviceAccess true; ClickStop] s = Some s3 /\
    recorders s3 = recorders s ++ [Stopping] /\
    mediaRecorder s3 = Some (length (recorders s)) /\
    audioChunks s3 = [] /\
    requests s3 = requests s /\
    session_id s3 = session_id s /\
    in_flight s3 = in_flight s /\
    awaiting_device s3 = awaiting_device s /\
    timers s3 = timers s /\
    recordBtn_disabled s3 = false /\
    stopBtn_disabled s3 = true.
Proof.
  intros Hen. cbn [run]. unfold step at 1. rewrite Hen.
  unfold step at 1. cbn [startRecording awaiting_device set_awaiting_device].
  unfold step at 1.
  set (s2 := startRecording_resume true
               (set_awaiting_device (awaiting_device s) (startRecording s))).
  assert (H2 : stopBtn_disabled s2 = false /\
               mediaRecorder s2 = Some (length (recorders s)) /\
               recorders s2 = recorders s ++ [Recording] /\
               audioChunks s2 = [] /\ requests s2 = requests s /\
               session_id s2 = session_id s /\ in_flight s2 = in_flight s /\
               awaiting_device s2 = awaiting_device s /\
               timers s2 = timers s)
    by (repeat split).
  destruct H2 as (A1 & A2 & A3 & A4 & A5 & A6 & A7 & A8 & A9).
  rewrite A1. eexists. split; [reflexivity |].
  destruct (stop_click_frame s2)
    as (F1 & F2 & F3 & F4 & F5 & F6 & F7 & F8 & F9 & F10).
  assert (Hrec : recorders (stopBtn_onclick s2) = recorders s ++ [Stopping]).
  { unfold stopBtn_onclick. rewrite A2, A3, snoc_lookup.
    cbn [recorders set_recordBtn_disabled set_stopBtn_disabled set_recorders].
    apply snoc_insert. }
  assert (Hsid : session_id (stopBtn_onclick s2) = session_id s).
  { unfold stopBtn_onclick. rewrite A2, A3, snoc_lookup. exact A6. }
  repeat split; congruence.
Qed.

(** Data and then the [stop] event of a live recorder, as one state. *)
Lemma data_then_stop (s : state) (r : nat) (chunks : list blob) :
  live s r = true ->
  run (map (DataAvailable r) chunks ++ [RecorderStop r]) s
  = Some (onstop
            (set_recorders (<[r := Stopped]> (recorders s))
               (set_audioChunks
                  (audioChunks s ++ filter (fun c => 0 < blob_size c) chunks)
                  s))).
Proof.
  intros Hlive. rewrite run_app, run_data by exact Hlive.
  cbn [run step].
  replace (live (set_audioChunks _ s) r) with (live s r) by reflexivity.
  rewrite Hlive. reflexivity.
Qed.

(** X4.  A turn sends its own chunks and nothing else.  From any page
    whose record button is enabled, a click on record, the grant, a click
    on stop, any chunks and the [stop] event run through, and add exactly
    one request: for the session of the page, with a file made of the
    non-empty chunks of this turn in their order.  What the buffer held
    before the turn is not in it, and chunks that arrive after the click on
    stop are.  At the end the recorder of the turn is stopped, the record
    button is enabled and the status says that the request is being
    processed. *)
Theorem turn_sends_its_own_chunks (s : state) (chunks : list blob) :
  recordBtn_disabled s = false ->
  exists s',
    run (recorded_turn (length (recorders s)) chunks) s = Some s' /\
    requests s'
    = requests s ++
      [chat_request (session_id s)
         (filter (fun c => 0 < blob_size c) chunks)] /\
    in_flight s' = S (in_flight s) /\
    recorders s' = recorders s ++ [Stopped] /\
    audioChunks s' = filter (fun c => 0 < blob_size c) chunks /\
    recordBtn_disabled s' = false /\
    stopBtn_disabled s' = true /\
    statusText s' = "Processing your request..." /\
    spinner_display s' = "block".
Proof.
  intros Hen.
  destruct (start_grant_stop s Hen)
    as (s3 & Hrun & Hrec & Hcur & Hbuf & Hreq & Hsid & Hfl & _ & _ & Hr & Hs).
  assert (Hlive : live s3 (length (recorders s)) = true).
  { unfold live. rewrite Hrec, snoc_lookup. reflexivity. }
  unfold recorded_turn. rewrite run_app, Hrun.
  rewrite (data_then_stop s3 _ chunks Hlive).
  eexists. split; [reflexivity |].
  unfold onstop, chat_request.
  cbn [requests in_flight recorders audioChunks recordBtn_disabled
       stopBtn_disabled statusText spinner_display session_id
       set_in_flight set_requests set_spinner_display set_statusText
       set_recorders set_audioChunks].
  rewrite Hreq, Hsid, Hfl, Hrec, Hbuf, Hr, Hs, snoc_insert. simpl.
  repeat split.
Qed.

(** The theorem on the example page, with chunks of 10, 0 and 20 bytes. *)
Lemma turn_sends_its_own_chunks_witness :
  exists s',
    run (recorded_turn 0 [chunk 10; chunk 0; chunk 20]) page0 = Some s' /\
    requests s' = [chat_request "S1" [chunk 10; chunk 20]] /\
    recorders s' = [Stopped].
Proof.
  destruct (turn_sends_its_own_chunks page0 [chunk 10; chunk 0; chunk 20]
              eq_refl)
    as (s' & Hrun & Hreq & _ & Hrec & _).
  exists s'. split; [exact Hrun |]. split; [exact Hreq | exact Hrec].
Defined.

(** *** Invariants of the event loop *)

Lemma run_invariant (I : state -> Prop) :
  (forall e s s', I s -> step e s = Some s' -> I s') ->
  forall evs s s', I s -> run evs s = Some s' -> I s'.
Proof.
  intros Hstep evs. induction evs as [| e evs IH]; intros s s' Hi Hrun.
  - injection Hrun as <-. exact Hi.
  - simpl in Hrun. destruct (step e s) as [s1 |] eqn:E; [| discriminate].
    eapply IH; [| exact Hrun]. eapply Hstep; eassumption.
Qed.

(** What one turn of the loop does to the requests. *)
Lemma step_requests (e : event) (s s' : state) :
  step e s = Some s' ->
  session_id s' = session_id s /\
  (requests s' = requests s \/
   requests s' = requests s ++ [chat_request (session_id s) (audioChunks s)]).
Proof.
  intros H. split; [eapply step_session_id; exact H |].
  destruct e; step_inv H; handlers; break_match_goal; auto.
Qed.

(** X5.  The session of a page never changes, and every request goes to
    it.  From a page that has sent nothing, after any events, the
    identifier is the one the page was loaded with, and every request made
    so far is a POST to [/agent/chat/] followed by that identifier, with the
    one form entry [file] of type [audio/webm] named [recording.webm]. *)
Theorem every_request_goes_to_the_session
    (s0 s : state) (evs : list event) :
  requests s0 = [] ->
  run evs s0 = Some s ->
  session_id s = session_id s0 /\
  Forall (fun q => exists parts, q = chat_request (session_id s0) parts)
         (requests s).
Proof.
  intros H0 Hrun.
  apply (run_invariant
           (fun st => session_id st = session_id s0 /\
                      Forall (fun q => exists parts,
                                  q = chat_request (session_id s0) parts)
                             (requests st))) with (evs := evs) (s := s0);
    [| split; [reflexivity | rewrite H0; constructor] | exact Hrun].
  intros e st st' (Hsid & Hall) Hstep.
  destruct (step_requests e st st' Hstep) as (Hsid' & [Hreq | Hreq]).
  - split; [congruence | rewrite Hreq; exact Hall].
  - split; [congruence |]. rewrite Hreq. apply Forall_app. split; [exact Hall |].
    constructor; [| constructor]. exists (audioChunks st). congruence.
Qed.

(** The theorem on two turns of the example page. *)
Lemma every_request_goes_to_the_session_witness :
  exists s,
    run two_turns page0 = Some s /\
    session_id s = "S1" /\
    Forall (fun q => exists parts, q = chat_request "S1" parts) (requests s).
Proof.
  eexists. split; [vm_compute; reflexivity |].
  match goal with
  | |- session_id ?s = _ /\ _ =>
      assert (Hrun : run two_turns page0 = Some s) by (vm_compute; reflexivity);
      exact (every_request_goes_to_the_session page0 s two_turns eq_refl Hrun)
  end.
Defined.

Lemma stopped_insert (l : list recorder) (r : nat) (x y : recorder) :
  l !! r = Some x ->
  length (filter (fun c => c = Stopped) (<[r := y]> l))
  + (if decide (x = Stopped) then 1 else 0)
  = length (filter (fun c => c = Stopped) l)
    + (if decide (y = Stopped) then 1 else 0).
Proof.
  revert r. induction l as [| a l IH]; intros r Hl; [discriminate |].
  destruct r as [| r]; simpl in Hl.
  - injection Hl as ->. simpl.
    rewrite !filter_cons.
    destruct (decide (x = Stopped)), (decide (y = Stopped)); simpl; lia.
  - specialize (IH r Hl). simpl. rewrite !filter_cons.
    destruct (decide (a = Stopped)); simpl; lia.
Qed.

Lemma live_lookup (s : state) (r : nat) :
  live s r = true ->
  exists x, recorders s !! r = Some x /\ x <> Stopped.
Proof.
  unfold live. destruct (recorders s !! r) as [[| |] |]; try discriminate;
    intros _; eexists; (split; [reflexivity | discriminate]).
Qed.

(** What one turn of the loop does to the count of stopped recorders, the
    requests and the replies awaited. *)
Lemma step_accounts (e : event) (s s' : state) :
  step e s = Some s' ->
  (stopped_count s' = stopped_count s /\
   length (requests s') = length (requests s) /\
   in_flight s' <= in_flight s) \/
  (stopped_count s' = S (stopped_count s) /\
   length (requests s') = S (length (requests s)) /\
   in_flight s' = S (in_flight s)).
Proof.
  intros H. unfold stopped_count. destruct e; unfold step in H.
  - left. destruct (recordBtn_disabled s); injection H as <-; handlers; auto.
  - left. destruct (stopBtn_disabled s); injection H as <-; [auto |].
    destruct (stop_click_frame s) as (_ & _ & _ & _ & -> & -> & _).
    split; [| auto].
    unfold stopBtn_onclick.
    destruct (mediaRecorder s) as [c |]; [| reflexivity].
    destruct (recorders s !! c) as [[| |] |] eqn:Ec; try reflexivity.
    handlers. pose proof (stopped_insert _ c Recording Stopping Ec) as Hc.
    simpl in Hc. lia.
  - left. destruct (awaiting_device s); [discriminate |].
    injection H as <-. destruct granted; handlers; [| auto].
    rewrite filter_app, length_app. simpl. split; [lia | auto].
  - left. destruct (live s r); [| discriminate]. injection H as <-.
    rewrite ondataavailable_frame. handlers. auto.
  - right. destruct (live s r) eqn:El; [| discriminate]. injection H as <-.
    apply live_lookup in El as (x & Hx & Hne). handlers.
    pose proof (stopped_insert _ r x Stopped Hx) as Hc.
    rewrite decide_False in Hc by exact Hne.
    rewrite decide_True in Hc by reflexivity.
    rewrite length_app. simpl. repeat split; lia.
  - left. destruct (in_flight s) as [| n]; [discriminate |].
    injection H as <-. settle_cases o; handlers; repeat split; lia.
  - left. destruct (audioPlayer_playing s); [| discriminate].
    injection H as <-. handlers. auto.
  - left. injection H as <-. handlers. auto.
  - left. destruct (timers s) as [| due rest]; [discriminate |].
    destruct (due <=? now s)%N; [| discriminate]. injection H as <-.
    unfold restart_callback. simpl.
    destruct (recordBtn_disabled s); handlers; auto.
Qed.

(** X6.  Each recording is sent exactly once.  From the loaded page, after
    any events, the number of requests made equals the number of recorders
    that have delivered their [stop] event, and no more replies are awaited
    than requests were made: nothing but a [stop] event sends a request,
    and no request is sent again. *)
Theorem one_request_per_stopped_recorder
    (s0 s : state) (evs : list event) :
  at_load s0 ->
  run evs s0 = Some s ->
  length (requests s) = stopped_count s /\
  in_flight s <= length (requests s).
Proof.
  intros Hload Hrun.
  apply (run_invariant
           (fun st => length (requests st) = stopped_count st /\
                      in_flight st <= length (requests st)))
    with (evs := evs) (s := s0); [| | exact Hrun].
  - intros e st st' (Hn & Hle) Hstep.
    destruct (step_accounts e st st' Hstep)
      as [(H1 & H2 & H3) | (H1 & H2 & H3)]; split; lia.
  - destruct Hload as (_ & _ & Hrec & _ & Hreq & Hfl & _).
    unfold stopped_count. rewrite Hrec, Hreq, Hfl. simpl. split; lia.
Qed.

(** The theorem on two turns of the example page. *)
Lemma one_request_per_stopped_recorder_witness :
  exists s,
    run two_turns page0 = Some s /\
    length (requests s) = stopped_count s /\
    stopped_count s = 2.
Proof.
  eexists. split; [vm_compute; reflexivity |].
  match goal with
  | |- length (requests ?s) = _ /\ _ =>
      assert (Hrun : run two_turns page0 = Some s) by (vm_compute; reflexivity);
      destruct (one_request_per_stopped_recorder page0 s two_turns
                  at_load_page0 Hrun) as (Hn & _)
  end.
  split; [exact Hn | vm_compute; reflexivity].
Defined.

(** What one turn of the loop does to the spinner. *)
Lemma step_spinner (e : event) (s s' : state) :
  step e s = Some s' ->
  (spinner_display s' = spinner_display s /\ in_flight s' = in_flight s) \/
  (spinner_display s' = "block" /\ in_flight s' = S (in_flight s)) \/
  spinner_display s' = "none".
Proof.
  intros H. destruct e; step_inv H; handlers; break_match_goal; auto.
  all: settle_cases o;
    handlers; auto.
Qed.

(** X7.  The spinner is never left on.  From a page whose spinner is
    hidden and that awaits no reply, after any events, the spinner is
    either hidden or shown with a reply still awaited; once every request
    has been answered, in whichever way, it is hidden. *)
Theorem spinner_hidden_when_nothing_in_flight
    (s0 s : state) (evs : list event) :
  spinner_display s0 = "none" ->
  run evs s0 = Some s ->
  (spinner_display s = "none" \/
   (spinner_display s = "block" /\ 0 < in_flight s)) /\
  (in_flight s = 0 -> spinner_display s = "none").
Proof.
  intros H0 Hrun.
  assert (Hinv : spinner_display s = "none" \/
                 (spinner_display s = "block" /\ 0 < in_flight s)).
  { apply (run_invariant
             (fun st => spinner_display st = "none" \/
                        (spinner_display st = "block" /\ 0 < in_flight st)))
      with (evs := evs) (s := s0); [| left; exact H0 | exact Hrun].
    intros e st st' Hi Hstep.
    destruct (step_spinner e st st' Hstep)
      as [(Hs & Hf) | [(Hs & Hf) | Hs]].
    - rewrite Hs, Hf. exact Hi.
    - right. split; [exact Hs | lia].
    - left. exact Hs. }
  split; [exact Hinv |].
  intros Hz. destruct Hinv as [Hn | (_ & Hpos)]; [exact Hn | lia].
Qed.

(** The theorem on the example page: shown while the first turn is
    processed, hidden after the reply, also after a failure. *)
Lemma spinner_hidden_when_nothing_in_flight_witness :
  spinner_display submitted0 = "block" /\
  (exists s,
      run (first_turn ++ [FetchSettled (NetworkError "Failed to fetch")])
          page0 = Some s /\
      in_flight s = 0 /\
      spinner_display s = "none").
Proof.
  split; [reflexivity |].
  eexists. split; [vm_compute; reflexivity |].
  split; [reflexivity |].
  match goal with
  | |- spinner_display ?s = _ =>
      assert (Hrun : run (first_turn
                            ++ [FetchSettled (NetworkError "Failed to fetch")])
                         page0 = Some s) by (vm_compute; reflexivity);
      apply (proj2 (spinner_hidden_when_nothing_in_flight page0 s _
                      eq_refl Hrun))
  end.
  reflexivity.
Defined.

(** *** The restart after a reply *)

(** The state after a due restart timer, written out. *)
Lemma played_out_state (s : state) (ms : N) :
  audioPlayer_playing s = true ->
  timers s = [] ->
  (500 <= ms)%N ->
  run (played_out ms) s
  = Some (restart_callback
            (set_timers []
               (set_now (now s + ms)%N
                  (audioPlayer_onended (set_audioPlayer_playing false s))))).
Proof.
  intros Hplay Htm Hms. unfold played_out. cbn [run].
  unfold step at 1. rewrite Hplay.
  unfold step at 1.
  set (s2 := set_now _ _).
  assert (H2 : timers s2 = [(now s + 500)%N] /\ now s2 = (now s + ms)%N).
  { subst s2. unfold audioPlayer_onended.
    cbn [timers now set_now set_timers set_audioPlayer_playing].
    rewrite Htm. split; reflexivity. }
  destruct H2 as (Ht & Hn).
  unfold step. rewrite Ht, Hn.
  replace (now s + 500 <=? now s + ms)%N with true
    by (symmetry; apply N.leb_le; lia).
  reflexivity.
Qed.

(** X8.  The restart fires when it is due and not before.  When a reply
    plays to its end on a page without a pending timer, then after 500 ms
    or more the timer fires: [startRecording] is called if the record
    button is enabled at that moment and nothing happens if it is disabled;
    no recorder and no request is made by the timer itself.  Before 500 ms
    have passed the timer cannot fire. *)
Theorem restart_fires_when_due (s : state) (ms : N) :
  audioPlayer_playing s = true ->
  timers s = [] ->
  ((500 <= ms)%N ->
   exists s',
     run (played_out ms) s = Some s' /\
     timers s' = [] /\
     audioPlayer_playing s' = false /\
     awaiting_device s'
     = (if recordBtn_disabled s then awaiting_device s
        else S (awaiting_device s)) /\
     recorders s' = recorders s /\
     requests s' = requests s /\
     in_flight s' = in_flight s /\
     recordBtn_disabled s' = recordBtn_disabled s) /\
  ((ms < 500)%N -> run (played_out ms) s = None).
Proof.
  intros Hplay Htm.
  set (s2 := set_now (now s + ms)%N
               (audioPlayer_onended (set_audioPlayer_playing false s))).
  assert (Hrun : run (played_out ms) s = step TimerFired s2).
  { unfold played_out. cbn [run]. unfold step at 1. rewrite Hplay.
    unfold step at 1.
    change (step TimerFired (set_now _ _)) with (step TimerFired s2).
    destruct (step TimerFired s2); reflexivity. }
  assert (H2 : timers s2 = [(now s + 500)%N] /\ now s2 = (now s + ms)%N /\
               recordBtn_disabled s2 = recordBtn_disabled s /\
               awaiting_device s2 = awaiting_device s /\
               recorders s2 = recorders s /\ requests s2 = requests s /\
               in_flight s2 = in_flight s /\
               audioPlayer_playing s2 = false).
  { subst s2. unfold audioPlayer_onended.
    cbn [timers now recordBtn_disabled awaiting_device recorders requests
         in_flight audioPlayer_playing set_now set_timers
         set_audioPlayer_playing].
    rewrite Htm. repeat split. }
  destruct H2 as (Ht & Hn & Hr & Ha & Hrec & Hreq & Hfl & Hp).
  rewrite Hrun. unfold step. rewrite Ht, Hn.
  split.
  - intros Hms.
    replace (now s + 500 <=? now s + ms)%N with true
      by (symmetry; apply N.leb_le; lia).
    eexists. split; [reflexivity |].
    unfold restart_callback.
    cbn [recordBtn_disabled set_timers]. rewrite Hr.
    destruct (recordBtn_disabled s) eqn:E; cbn [negb]; unfold startRecording;
      cbn [timers audioPlayer_playing awaiting_device recorders requests
           in_flight recordBtn_disabled set_timers set_awaiting_device];
      repeat split; congruence.
  - intros Hms.
    replace (now s + 500 <=? now s + ms)%N with false
      by (symmetry; apply N.leb_gt; lia).
    reflexivity.
Qed.

(** The example page after the first turn has been answered. *)
Lemma restart_fires_when_due_witness :
  exists s,
    run (first_turn ++ [FetchSettled (Responded true (Parsed reply_hi))])
        page0 = Some s /\
    (exists s',
        run (played_out 500) s = Some s' /\ awaiting_device s' = 1) /\
    run (played_out 499) s = None.
Proof.
  eexists. split; [vm_compute; reflexivity |].
  match goal with
  | |- (exists s', run _ ?s = _ /\ _) /\ _ =>
      destruct (restart_fires_when_due s 500 eq_refl eq_refl) as (Hdue & _);
      destruct (restart_fires_when_due s 499 eq_refl eq_refl) as (_ & Hearly)
  end.
  split.
  - destruct Hdue as (s' & Hrun & _ & _ & Haw & _); [vm_compute; discriminate |].
    exists s'. split; [exact Hrun | exact Haw].
  - apply Hearly. reflexivity.
Defined.

(** X9.  Pressing stop does not end the conversation.  From a page whose
    record button is enabled and that has no restart timer pending, a turn
    recorded by hand and ended with the stop button, a reply whose two
    fields pass the test and turn into strings, its playback to the end
    and 500 ms or more lead to a new call of [startRecording] without any
    further click; when the microphone is granted, a second recorder is
    capturing, the buffer is empty again and the reply of the turn before
    is cleared from the page. *)
Theorem stop_does_not_end_the_conversation
    (s : state) (chunks : list blob) (o : fetch_outcome)
    (text url : jsval) (t u : string) (ms : N) :
  recordBtn_disabled s = false ->
  timers s = [] ->
  turn_reply o = inr (text, url) ->
  ToString text = Some t ->
  ToString url = Some u ->
  (500 <= ms)%N ->
  exists s1 s2,
    run (recorded_turn (length (recorders s)) chunks
         ++ [FetchSettled o] ++ played_out ms) s = Some s1 /\
    awaiting_device s1 = S (awaiting_device s) /\
    geminiText s1 = t /\
    step (DeviceAccess true) s1 = Some s2 /\
    recorders s2 = recorders s ++ [Stopped; Recording] /\
    mediaRecorder s2 = Some (S (length (recorders s))) /\
    audioChunks s2 = [] /\
    geminiText s2 = "No response yet." /\
    recordBtn_disabled s2 = true /\
    stopBtn_disabled s2 = false.
Proof.
  intros Hen Htm Hreply Htext Hurl Hms.
  destruct (start_grant_stop s Hen)
    as (s3 & Hrun3 & Hrec3 & _ & _ & _ & _ & Hfl3 & Haw3 & Htm3 & Hr3 & _).
  assert (Hlive : live s3 (length (recorders s)) = true).
  { unfold live. rewrite Hrec3, snoc_lookup. reflexivity. }
  pose proof (data_then_stop s3 _ chunks Hlive) as Hrun4.
  set (s4 := onstop _) in Hrun4.
  assert (H4 : in_flight s4 = S (in_flight s3) /\
               recorders s4 = recorders s ++ [Stopped] /\
               awaiting_device s4 = awaiting_device s /\
               timers s4 = [] /\ recordBtn_disabled s4 = false).
  { subst s4. unfold onstop.
    cbn [in_flight recorders awaiting_device timers recordBtn_disabled
         set_in_flight set_requests set_spinner_display set_statusText
         set_recorders set_audioChunks].
    rewrite Hrec3, snoc_insert, Haw3, Htm3, Htm, Hr3. repeat split. }
  destruct H4 as (Hfl4 & Hrec4 & Haw4 & Htm4 & Hr4).
  set (s5 := onstop_resume o (set_in_flight (in_flight s3) s4)).
  assert (Hstep5 : step (FetchSettled o) s4 = Some s5).
  { unfold step. rewrite Hfl4. reflexivity. }
  assert (H5 : audioPlayer_playing s5 = true /\ timers s5 = [] /\
               recordBtn_disabled s5 = false /\
               awaiting_device s5 = awaiting_device s /\
               recorders s5 = recorders s ++ [Stopped] /\
               geminiText s5 = t).
  { subst s5. unfold onstop_resume. rewrite Hreply.
    cbv beta iota zeta. rewrite Htext, Hurl.
    cbn [audioPlayer_playing timers recordBtn_disabled awaiting_device
         recorders geminiText set_statusText set_audioPlayer_playing
         set_audioPlayer_display set_audioPlayer_src set_geminiText
         set_spinner_display set_in_flight].
    repeat split; assumption. }
  destruct H5 as (Hp5 & Htm5 & Hr5 & Haw5 & Hrec5 & Hg5).
  pose proof (played_out_state s5 ms Hp5 Htm5 Hms) as Hrun6.
  set (s6 := restart_callback _) in Hrun6.
  assert (H6 : awaiting_device s6 = S (awaiting_device s5) /\
               recorders s6 = recorders s5 /\
               geminiText s6 = geminiText s5).
  { subst s6. unfold restart_callback.
    cbn [recordBtn_disabled set_timers set_now audioPlayer_onended
         set_audioPlayer_playing].
    rewrite Hr5. cbn [negb]. unfold startRecording, audioPlayer_onended.
    cbn [awaiting_device recorders geminiText set_awaiting_device set_timers
         set_now set_audioPlayer_playing].
    repeat split. }
  destruct H6 as (Haw6 & Hrec6 & Hg6). rewrite Hg5 in Hg6.
  exists s6. eexists.
  split.
  { unfold recorded_turn. rewrite <- !app_assoc.
    rewrite run_app, Hrun3. rewrite app_assoc, run_app, Hrun4.
    cbn [app run]. rewrite Hstep5. exact Hrun6. }
  split; [congruence |]. split; [exact Hg6 |].
  split.
  { unfold step. rewrite Haw6, Haw5. reflexivity. }
  unfold startRecording_resume.
  cbn [recorders mediaRecorder audioChunks geminiText recordBtn_disabled
       stopBtn_disabled set_audioPlayer_playing set_audioPlayer_src
       set_audioPlayer_display set_geminiText set_statusText
       set_stopBtn_disabled set_recordBtn_disabled set_recorders
       set_audioChunks set_mediaRecorder set_awaiting_device].
  rewrite Hrec6, Hrec5, <- app_assoc, length_app. simpl.
  repeat split. f_equal. lia.
Qed.

(** The theorem on the example page, with the reply [hi]. *)
Lemma stop_does_not_end_the_conversation_witness :
  exists s1 s2,
    run (recorded_turn 0 [chunk 30]
         ++ [FetchSettled (Responded true (Parsed reply_hi))]
         ++ played_out 500) page0 = Some s1 /\
    awaiting_device s1 = 1 /\
    step (DeviceAccess true) s1 = Some s2 /\
    recorders s2 = [Stopped; Recording].
Proof.
  destruct (stop_does_not_end_the_conversation page0 [chunk 30]
              (Responded true (Parsed reply_hi))
              (Some (JStr "hi")) (Some (JStr "u1")) "hi" "u1" 500
              eq_refl eq_refl eq_refl eq_refl eq_refl)
    as (s1 & s2 & Hrun & Haw & _ & Hstep & Hrec & _).
  - vm_compute. discriminate.
  - exists s1, s2. repeat split; assumption.
Defined.

(** *** Recorders that are no longer the current one *)

(** A recorder that is capturing and is not the current one stays so
    through every event but its own [stop] event. *)
Lemma overtaken_step (r : nat) (e : event) (s s' : state) :
  recorders s !! r = Some Recording ->
  mediaRecorder s <> Some r ->
  is_stop_of r e = false ->
  step e s = Some s' ->
  recorders s' !! r = Some Recording /\ mediaRecorder s' <> Some r.
Proof.
  intros Hr Hcur Hno Hstep.
  assert (Hlt : r < length (recorders s)) by (eapply lookup_lt_Some; exact Hr).
  destruct e; unfold step in Hstep.
  - destruct (recordBtn_disabled s); injection Hstep as <-; handlers; auto.
  - destruct (stopBtn_disabled s); injection Hstep as <-; [auto |].
    destruct (stop_click_frame s) as (_ & _ & -> & _).
    split; [| exact Hcur].
    rewrite stop_click_recorders, decide_False; [exact Hr |].
    intros [Hc _]. contradiction.
  - destruct (awaiting_device s); [discriminate |].
    injection Hstep as <-. destruct granted; handlers; [| auto].
    split.
    + rewrite lookup_app_l by exact Hlt. exact Hr.
    + intros [= E]. lia.
  - destruct (live s r0); [| discriminate]. injection Hstep as <-.
    rewrite ondataavailable_frame. handlers. auto.
  - destruct (live s r0); [| discriminate]. injection Hstep as <-. handlers.
    split; [| exact Hcur].
    rewrite list_lookup_insert_ne; [exact Hr |].
    simpl in Hno. apply Nat.eqb_neq in Hno. congruence.
  - destruct (in_flight s); [discriminate |]. injection Hstep as <-.
    settle_cases o; handlers;
      auto.
  - destruct (audioPlayer_playing s); [| discriminate].
    injection Hstep as <-. handlers. auto.
  - injection Hstep as <-. handlers. auto.
  - destruct (timers s) as [| due rest]; [discriminate |].
    destruct (due <=? now s)%N; [| discriminate]. injection Hstep as <-.
    unfold restart_callback. simpl.
    destruct (recordBtn_disabled s); handlers; auto.
Qed.

Lemma overtaken_run (r : nat) (evs : list event) (s s' : state) :
  recorders s !! r = Some Recording ->
  mediaRecorder s <> Some r ->
  forallb (fun e => negb (is_stop_of r e)) evs = true ->
  run evs s = Some s' ->
  recorders s' !! r = Some Recording /\ mediaRecorder s' <> Some r.
Proof.
  revert s. induction evs as [| e evs IH]; intros s Hr Hcur Hno Hrun.
  - injection Hrun as <-. auto.
  - simpl in Hno. apply andb_true_iff in Hno as [He Hno].
    apply negb_true_iff in He. simpl in Hrun.
    destruct (step e s) as [s1 |] eqn:E; [| discriminate].
    destruct (overtaken_step r e s s1 Hr Hcur He E) as (Hr1 & Hc1).
    exact (IH s1 Hr1 Hc1 Hno Hrun).
Qed.

(** X10.  [startRecording] does not look for a recorder that is already
    running.  When the microphone is granted while a recorder [r] is
    capturing, a further recorder is made and becomes the current one, so
    that one more recorder is capturing than before.  From then on nothing
    the script does stops [r]: whatever clicks, grants, replies and timers
    follow, [r] is still capturing and is never the current recorder again,
    unless the browser ends it by itself. *)
Theorem second_grant_leaves_first_recorder_running
    (r : nat) (s s1 s' : state) (evs : list event) :
  recorders s !! r = Some Recording ->
  step (DeviceAccess true) s = Some s1 ->
  forallb (fun e => negb (is_stop_of r e)) evs = true ->
  run evs s1 = Some s' ->
  capturing s1 = S (capturing s) /\
  mediaRecorder s1 = Some (length (recorders s)) /\
  recorders s' !! r = Some Recording /\
  mediaRecorder s' <> Some r.
Proof.
  intros Hr Hgrant Hno Hrun.
  assert (Hlt : r < length (recorders s)) by (eapply lookup_lt_Some; exact Hr).
  unfold step in Hgrant.
  destruct (awaiting_device s) as [| n]; [discriminate |].
  injection Hgrant as <-.
  match type of Hrun with
  | run _ ?t = _ =>
      assert (H1 : recorders t = recorders s ++ [Recording] /\
                   mediaRecorder t = Some (length (recorders s)))
        by (split; reflexivity)
  end.
  destruct H1 as (Hrec1 & Hcur1).
  split.
  { unfold capturing. rewrite Hrec1, filter_app, length_app. simpl. lia. }
  split; [exact Hcur1 |].
  eapply (overtaken_run r evs); [| | exact Hno | exact Hrun].
  - rewrite Hrec1, lookup_app_l by exact Hlt. exact Hr.
  - rewrite Hcur1. intros [= E]. lia.
Qed.

(** The theorem on the example page after two clicks on record: the
    first recorder outlives a click on stop and a whole further turn. *)
Lemma second_grant_leaves_first_recorder_running_witness :
  exists s s1 s',
    run [ClickRecord; ClickRecord; DeviceAccess true] page0 = Some s /\
    step (DeviceAccess true) s = Some s1 /\
    run ([ClickStop; DataAvailable 1 (chunk 5); RecorderStop 1]
         ++ recorded_turn 2 [chunk 7]) s1 = Some s' /\
    capturing s1 = 2 /\
    recorders s' = [Recording; Stopped; Stopped].
Proof.
  exists (default page0
            (run [ClickRecord; ClickRecord; DeviceAccess true] page0)).
  eexists. eexists.
  split; [vm_compute; reflexivity |].
  split; [vm_compute; reflexivity |].
  split; [vm_compute; reflexivity |].
  match goal with
  | |- capturing ?s1 = 2 /\ recorders ?s' = _ =>
      assert (Hr : recorders
                     (default page0
                        (run [ClickRecord; ClickRecord; DeviceAccess true]
                             page0)) !! 0 = Some Recording)
        by (vm_compute; reflexivity);
      assert (Hgrant : step (DeviceAccess true)
                         (default page0
                            (run [ClickRecord; ClickRecord; DeviceAccess true]
                                 page0)) = Some s1)
        by (vm_compute; reflexivity);
      assert (Hno : forallb (fun e => negb (is_stop_of 0 e))
                      ([ClickStop; DataAvailable 1 (chunk 5); RecorderStop 1]
                       ++ recorded_turn 2 [chunk 7]) = true)
        by (vm_compute; reflexivity);
      assert (Hrun : run ([ClickStop; DataAvailable 1 (chunk 5);
                           RecorderStop 1] ++ recorded_turn 2 [chunk 7]) s1
                     = Some s') by (vm_compute; reflexivity);
      destruct (second_grant_leaves_first_recorder_running 0 _ s1 s' _
                  Hr Hgrant Hno Hrun) as (Hcap & _)
  end.
  split; [exact Hcap | vm_compute; reflexivity].
Defined.

(** *** The buttons and the current recorder *)

(** X11.  A recording can always be stopped.  From the loaded page, after
    any events, whenever the current recorder is recording the stop button
    is enabled and the record button is disabled; so a click on stop is
    delivered and ends that recording. *)
Theorem current_recording_can_be_stopped
    (s0 s : state) (evs : list event) :
  at_load s0 ->
  run evs s0 = Some s ->
  forall r,
    mediaRecorder s = Some r ->
    recorders s !! r = Some Recording ->
    stopBtn_disabled s = false /\
    recordBtn_disabled s = true /\
    exists s',
      step ClickStop s = Some s' /\ recorders s' !! r = Some Stopping.
Proof.
  intros Hload Hrun.
  assert (Hinv : forall r,
             mediaRecorder s = Some r ->
             recorders s !! r = Some Recording ->
             stopBtn_disabled s = false /\ recordBtn_disabled s = true).
  { apply (run_invariant
             (fun st => forall r,
                  mediaRecorder st = Some r ->
                  recorders st !! r = Some Recording ->
                  stopBtn_disabled st = false /\
                  recordBtn_disabled st = true))
      with (evs := evs) (s := s0); [| | exact Hrun].
    - intros e st st' Hi Hstep r.
      destruct e; unfold step in Hstep.
      + destruct (recordBtn_disabled st) eqn:E; injection Hstep as <-;
          handlers; intros Hc Hr; destruct (Hi r Hc Hr); split; congruence.
      + destruct (stopBtn_disabled st) eqn:E; injection Hstep as <-;
          [intros Hc Hr; destruct (Hi r Hc Hr); split; congruence |].
        destruct (stop_click_frame st) as (_ & _ & -> & _).
        intros Hc Hr. rewrite stop_click_recorders in Hr.
        case_decide as Hd; [discriminate |].
        destruct Hd. split; assumption.
      + destruct (awaiting_device st); [discriminate |].
        injection Hstep as <-. destruct granted; handlers; [auto |].
        apply Hi.
      + destruct (live st r0); [| discriminate]. injection Hstep as <-.
        rewrite ondataavailable_frame. handlers. apply Hi.
      + destruct (live st r0); [| discriminate]. injection Hstep as <-.
        handlers. intros Hc Hr.
        apply list_lookup_insert_Some in Hr as [(_ & Hx & _) | (_ & Hr)];
          [discriminate |].
        exact (Hi r Hc Hr).
      + destruct (in_flight st); [discriminate |]. injection Hstep as <-.
        settle_cases o; handlers; apply Hi.
      + destruct (audioPlayer_playing st); [| discriminate].
        injection Hstep as <-. handlers. apply Hi.
      + injection Hstep as <-. handlers. apply Hi.
      + destruct (timers st) as [| due rest]; [discriminate |].
        destruct (due <=? now st)%N; [| discriminate].
        injection Hstep as <-. unfold restart_callback. simpl.
        destruct (recordBtn_disabled st) eqn:E; handlers;
          intros Hc Hr; destruct (Hi r Hc Hr); split; congruence.
    - intros r Hc. destruct Hload as (Hnone & _). congruence. }
  intros r Hc Hr. destruct (Hinv r Hc Hr) as (Hstop & Hrecord).
  split; [exact Hstop |]. split; [exact Hrecord |].
  unfold step. rewrite Hstop. eexists. split; [reflexivity |].
  rewrite stop_click_recorders, decide_True by (split; assumption).
  reflexivity.
Qed.

(** The theorem on the example page, also after the two clicks that leave
    a recorder behind. *)
Lemma current_recording_can_be_stopped_witness :
  exists s,
    run double_click page0 = Some s /\
    stopBtn_disabled s = false /\
    recordBtn_disabled s = true /\
    exists s',
      step ClickStop s = Some s' /\ recorders s' !! 1 = Some Stopping.
Proof.
  eexists. split; [vm_compute; reflexivity |].
  match goal with
  | |- stopBtn_disabled ?s = _ /\ _ =>
      assert (Hrun : run double_click page0 = Some s)
        by (vm_compute; reflexivity);
      exact (current_recording_can_be_stopped page0 s double_click
               at_load_page0 Hrun 1 eq_refl eq_refl)
  end.
Defined.

(** *** The chunk buffer over a whole run *)

(** What one turn of the loop does to the buffer. *)
Lemma step_chunks (e : event) (s s' : state) :
  step e s = Some s' ->
  audioChunks s' = audioChunks s \/
  audioChunks s' = [] \/
  exists c, 0 < blob_size c /\ audioChunks s' = audioChunks s ++ [c].
Proof.
  intros H. destruct e; unfold step in H.
  - left. destruct (recordBtn_disabled s); injection H as <-; reflexivity.
  - left. destruct (stopBtn_disabled s); injection H as <-; [reflexivity |].
    apply stop_click_frame.
  - destruct (awaiting_device s); [discriminate |]. injection H as <-.
    destruct granted; handlers; auto.
  - destruct (live s r); [| discriminate]. injection H as <-.
    unfold ondataavailable. destruct (0 <? blob_size data) eqn:E; [| auto].
    right; right. exists data. apply Nat.ltb_lt in E. handlers. auto.
  - left. destruct (live s r); [| discriminate]. injection H as <-.
    reflexivity.
  - left. destruct (in_flight s); [discriminate |]. injection H as <-.
    settle_cases o; reflexivity.
  - left. destruct (audioPlayer_playing s); [| discriminate].
    injection H as <-. reflexivity.
  - left. injection H as <-. reflexivity.
  - left. destruct (timers s) as [| due rest]; [discriminate |].
    destruct (due <=? now s)%N; [| discriminate]. injection H as <-.
    unfold restart_callback. simpl. destruct (recordBtn_disabled s);
      reflexivity.
Qed.

Lemma concat_nonempty_nil (parts : list blob) :
  Forall (fun c => 0 < blob_size c) parts ->
  blob_size (new_Blob parts "audio/webm") = 0 -> parts = [].
Proof.
  intros Hall Hz. destruct Hall as [| c rest Hc _]; [reflexivity |].
  unfold blob_size, new_Blob in Hz. cbn [blob_data map concat] in Hz.
  rewrite length_app in Hz. unfold blob_size in Hc. lia.
Qed.

(** X12.  The buffer never holds an empty chunk.  From a page whose
    buffer holds none, after any events, with any number of recorders
    delivering data in any order, every chunk in the buffer has a positive
    size.  So the file that a [stop] event would send now has zero bytes
    exactly when the buffer holds no chunk at all. *)
Theorem buffer_never_holds_an_empty_chunk
    (s0 s : state) (evs : list event) :
  Forall (fun c => 0 < blob_size c) (audioChunks s0) ->
  run evs s0 = Some s ->
  Forall (fun c => 0 < blob_size c) (audioChunks s) /\
  (blob_size (new_Blob (audioChunks s) "audio/webm") = 0 <->
   audioChunks s = []).
Proof.
  intros H0 Hrun.
  assert (Hinv : Forall (fun c => 0 < blob_size c) (audioChunks s)).
  { apply (run_invariant
             (fun st => Forall (fun c => 0 < blob_size c) (audioChunks st)))
      with (evs := evs) (s := s0); [| exact H0 | exact Hrun].
    intros e st st' Hi Hstep.
    destruct (step_chunks e st st' Hstep) as [-> | [-> | (c & Hc & ->)]].
    - exact Hi.
    - constructor.
    - apply Forall_app. split; [exact Hi |]. constructor; [exact Hc |].
      constructor. }
  split; [exact Hinv |].
  split.
  - apply concat_nonempty_nil. exact Hinv.
  - intros ->. reflexivity.
Qed.

(** The theorem on the example page, with an empty chunk between two
    others. *)
Lemma buffer_never_holds_an_empty_chunk_witness :
  exists s,
    run [ClickRecord; DeviceAccess true; DataAvailable 0 (chunk 10);
         DataAvailable 0 (chunk 0); DataAvailable 0 (chunk 20)] page0
    = Some s /\
    audioChunks s = [chunk 10; chunk 20] /\
    Forall (fun c => 0 < blob_size c) (audioChunks s).
Proof.
  eexists. split; [vm_compute; reflexivity |].
  split; [vm_compute; reflexivity |].
  match goal with
  | |- Forall _ (audioChunks ?s) =>
      assert (Hrun : run [ClickRecord; DeviceAccess true;
                          DataAvailable 0 (chunk 10);
                          DataAvailable 0 (chunk 0);
                          DataAvailable 0 (chunk 20)] page0 = Some s)
        by (vm_compute; reflexivity);
      assert (H0 : Forall (fun c => 0 < blob_size c) (audioChunks page0))
        by constructor;
      apply (proj1 (buffer_never_holds_an_empty_chunk page0 s _ H0 Hrun))
  end.
Defined.

(** *** Replies that come late, and replies that fail *)

(** X13.  A reply that comes while the next turn is being recorded does
    not disturb the recording.  When, on a page with no restart timer
    pending, a request settles while the record button is disabled, with a
    reply whose two fields pass the test and turn into strings, the reply
    is shown and played, and when its playback has ended and the delay has
    passed the timer does nothing: the recorders, the current recorder and
    the buffer are as before, no start request was made, and no timer is
    left. *)
Theorem late_reply_does_not_disturb_recording
    (s : state) (o : fetch_outcome) (text url : jsval) (t u : string)
    (ms : N) :
  recordBtn_disabled s = true ->
  0 < in_flight s ->
  timers s = [] ->
  turn_reply o = inr (text, url) ->
  ToString text = Some t ->
  ToString url = Some u ->
  (500 <= ms)%N ->
  exists s',
    run (FetchSettled o :: played_out ms) s = Some s' /\
    geminiText s' = t /\
    audioPlayer_src s' = u /\
    recorders s' = recorders s /\
    mediaRecorder s' = mediaRecorder s /\
    audioChunks s' = audioChunks s /\
    awaiting_device s' = awaiting_device s /\
    recordBtn_disabled s' = true /\
    stopBtn_disabled s' = stopBtn_disabled s /\
    timers s' = [].
Proof.
  intros Hoff Hfl Htm Hreply Htext Hurl Hms.
  destruct (in_flight s) as [| n] eqn:En; [lia |].
  cbn [run]. unfold step at 1. rewrite En.
  set (s1 := onstop_resume o (set_in_flight n s)).
  assert (H1 : audioPlayer_playing s1 = true /\ timers s1 = [] /\
               recordBtn_disabled s1 = true /\
               geminiText s1 = t /\
               audioPlayer_src s1 = u /\
               recorders s1 = recorders s /\
               mediaRecorder s1 = mediaRecorder s /\
               audioChunks s1 = audioChunks s /\
               awaiting_device s1 = awaiting_device s /\
               stopBtn_disabled s1 = stopBtn_disabled s).
  { subst s1. unfold onstop_resume. rewrite Hreply.
    cbv beta iota zeta. rewrite Htext, Hurl.
    cbn [audioPlayer_playing timers recordBtn_disabled geminiText
         audioPlayer_src recorders mediaRecorder audioChunks awaiting_device
         stopBtn_disabled set_statusText set_audioPlayer_playing
         set_audioPlayer_display set_audioPlayer_src set_geminiText
         set_spinner_display set_in_flight].
    repeat split; assumption. }
  destruct H1 as (Hp & Ht & Hr & Hg & Hsrc & Hrec & Hcur & Hbuf & Haw & Hst).
  rewrite (played_out_state s1 ms Hp Ht Hms).
  eexists. split; [reflexivity |].
  unfold restart_callback.
  cbn [recordBtn_disabled set_timers set_now audioPlayer_onended
       set_audioPlayer_playing].
  rewrite Hr. cbn [negb].
  unfold audioPlayer_onended.
  cbn [geminiText audioPlayer_src recorders mediaRecorder audioChunks
       awaiting_device recordBtn_disabled stopBtn_disabled timers
       set_timers set_now set_audioPlayer_playing].
  repeat split; assumption.
Qed.

(** The theorem on the example page: the second turn is being recorded
    when the reply to the first arrives. *)
Lemma late_reply_does_not_disturb_recording_witness :
  exists s s',
    run (first_turn ++ [ClickRecord; DeviceAccess true;
                        DataAvailable 1 (chunk 5)]) page0 = Some s /\
    run (FetchSettled (Responded true (Parsed reply_hi)) :: played_out 500) s
    = Some s' /\
    geminiText s' = "hi" /\
    recorders s' = [Stopped; Recording] /\
    audioChunks s' = [chunk 5] /\
    awaiting_device s' = 0.
Proof.
  exists (default page0
            (run (first_turn ++ [ClickRecord; DeviceAccess true;
                                 DataAvailable 1 (chunk 5)]) page0)).
  destruct (late_reply_does_not_disturb_recording
              (default page0
                 (run (first_turn ++ [ClickRecord; DeviceAccess true;
                                      DataAvailable 1 (chunk 5)]) page0))
              (Responded true (Parsed reply_hi))
              (Some (JStr "hi")) (Some (JStr "u1")) "hi" "u1" 500)
    as (s' & Hrun & Hg & _ & Hrec & _ & Hbuf & Haw & _).
  - reflexivity.
  - vm_compute. lia.
  - reflexivity.
  - reflexivity.
  - reflexivity.
  - reflexivity.
  - vm_compute. discriminate.
  - exists s'. split; [vm_compute; reflexivity |].
    split; [exact Hrun |]. split; [exact Hg |].
    split; [rewrite Hrec; vm_compute; reflexivity |].
    split; [rewrite Hbuf; vm_compute; reflexivity |].
    rewrite Haw. reflexivity.
Defined.

(** X14.  After a failed turn the conversation waits for the user.  When
    the only request in flight fails on a page where nothing else is under
    way, the page is quiet afterwards: the failure starts no playback and
    sets no timer, so whatever happens next short of a click on the record
    button, no recorder is made and no request is sent, and the request
    that failed is not repeated.  The record button is as it was, so if it
    was enabled a click on it starts a new turn. *)
Theorem failed_turn_waits_for_the_user
    (s s' s'' : state) (o : fetch_outcome) (message : thrown)
    (evs : list event) :
  in_flight s = 1 ->
  awaiting_device s = 0 ->
  timers s = [] ->
  audioPlayer_playing s = false ->
  Forall (eq Stopped) (recorders s) ->
  turn_error o = Some message ->
  step (FetchSettled o) s = Some s' ->
  forallb (fun e => negb (is_click_record e)) evs = true ->
  run evs s' = Some s'' ->
  quiet s' /\
  recordBtn_disabled s' = recordBtn_disabled s /\
  recorders s'' = recorders s /\
  requests s'' = requests s /\
  in_flight s'' = 0 /\
  awaiting_device s'' = 0.
Proof.
  intros Hfl Haw Htm Hpl Hall Hfail Hstep Hno Hrun.
  unfold step in Hstep. rewrite Hfl in Hstep. injection Hstep as <-.
  set (s1 := onstop_resume o (set_in_flight 0 s)) in *.
  assert (H1 : awaiting_device s1 = awaiting_device s /\ in_flight s1 = 0 /\
               timers s1 = timers s /\
               audioPlayer_playing s1 = audioPlayer_playing s /\
               recorders s1 = recorders s /\ requests s1 = requests s /\
               recordBtn_disabled s1 = recordBtn_disabled s).
  { subst s1. unfold turn_error in Hfail. unfold onstop_resume, onstop_catch.
    destruct (turn_reply o) as [e | [text url]];
      [| destruct (ToString text) as [t |];
         [destruct (ToString url) as [u |] |]];
      try discriminate Hfail; repeat split. }
  destruct H1 as (A1 & A2 & A3 & A4 & A5 & A6 & A7).
  assert (Hq : quiet s1).
  { unfold quiet. rewrite A1, A2, A3, A4, A5. repeat split; assumption. }
  destruct (quiet_run evs s1 s'' Hq Hno Hrun) as ((Q1 & Q2 & _) & Hrec & Hreq).
  split; [exact Hq |]. split; [exact A7 |].
  repeat split; congruence.
Qed.

(** The theorem on the example page, with the reply of the quota
    scenario. *)
Lemma failed_turn_waits_for_the_user_witness :
  exists s' s'',
    step (FetchSettled (Responded false (Parsed reply_quota))) submitted0
    = Some s' /\
    run [Tick 60000; ClickStop] s' = Some s'' /\
    quiet s' /\
    recorders s'' = [Stopped] /\
    length (requests s'') = 1.
Proof.
  eexists. eexists.
  split; [vm_compute; reflexivity |].
  split; [vm_compute; reflexivity |].
  match goal with
  | |- quiet ?s' /\ recorders ?s'' = _ /\ _ =>
      assert (Hstep : step (FetchSettled
                              (Responded false (Parsed reply_quota)))
                           submitted0 = Some s')
        by (vm_compute; reflexivity);
      assert (Hrun : run [Tick 60000; ClickStop] s' = Some s'')
        by (vm_compute; reflexivity);
      assert (Hall : Forall (eq Stopped) (recorders submitted0))
        by (vm_compute; repeat constructor);
      destruct (failed_turn_waits_for_the_user submitted0 s' s''
                  (Responded false (Parsed reply_quota))
                  (Message "quota exceeded")
                  [Tick 60000; ClickStop]
                  eq_refl eq_refl eq_refl eq_refl Hall eq_refl Hstep
                  eq_refl Hrun)
        as (Hq & _ & Hrec & Hreq & _)
  end.
  split; [exact Hq |].
  split; [rewrite Hrec; vm_compute; reflexivity |].
  rewrite Hreq. vm_compute. reflexivity.
Defined.

End LoopMore.
